(** * ra-data-treeql: the TreeQL data provider for react-admin

    A shallow embedding of [src/index.ts] (the filter compiler
    [formatFilter] / [formatFilterArguments], the query-string assembly
    [formatParams], the URL builder [getURL] and the nine operations of
    [TreeQLDataProvider]) together with the properties of its
    natural-language specification.

    Conventions of the embedding.
    - JavaScript values are the inductive [JsValue].  Numbers are the integers
      (a [Z], printed in decimal, as JavaScript prints every integer below
      10^21); there is one zero and no NaN.
    - A JavaScript string is a Rocq [string]; the two agree on ASCII text.
      Outside ASCII a Rocq character is one byte of the UTF-8 form.
    - An object is the list of its own enumerable properties in the order
      [Object.entries] yields them, which is insertion order for keys that
      are not canonical array indices.
    - [throw] is the left injection of a sum; the injected HTTP client is a
      field of the provider and every call to it is logged. *)

From Stdlib Require Import ZArith List Bool Lia.
From Stdlib Require Import Strings.String Strings.Ascii Numbers.DecimalString.
Import ListNotations.

#[local] Set Warnings "-register-all".

Local Open Scope list_scope.
Local Open Scope string_scope.

(** ** JavaScript values *)

Module Js.

Inductive JsValue : Type :=
| JUndefined
| JNull
| JBool (b : bool)
| JNum (n : Z)
| JStr (s : string)
| JArr (elems : list JsValue)
| JObj (props : list (string * JsValue)).

Definition JsObject := list (string * JsValue).

Inductive JsError : Type :=
| TypeError (message : string)
| URIError (message : string).

(** [!!v] *)
Definition truthy (v : JsValue) : bool :=
  match v with
  | JUndefined | JNull => false
  | JBool b => b
  | JNum n => negb (n =? 0)%Z
  | JStr s => negb (s =? "")
  | JArr _ | JObj _ => true
  end.

Definition isArray (v : JsValue) : bool :=
  match v with JArr _ => true | _ => false end.

Definition Z_to_string (n : Z) : string := NilZero.string_of_int (Z.to_int n).

(** [sep]-separated concatenation, the tail of [Array.prototype.join]. *)
Fixpoint concat_sep (sep : string) (l : list string) : string :=
  match l with
  | [] => ""
  | [x] => x
  | x :: rest => x ++ sep ++ concat_sep sep rest
  end.

(** [String(v)], the coercion of template literals, and the element
    coercion of [Array.prototype.join], in which [null] and [undefined]
    print as the empty string. *)
Fixpoint ToString (v : JsValue) : string :=
  match v with
  | JUndefined => "undefined"
  | JNull => "null"
  | JBool true => "true"
  | JBool false => "false"
  | JNum n => Z_to_string n
  | JStr s => s
  | JArr elems =>
      concat_sep ","
        (map (fun e => match e with
                       | JUndefined | JNull => ""
                       | _ => ToString e
                       end) elems)
  | JObj _ => "[object Object]"
  end.

Definition join_elem (e : JsValue) : string :=
  match e with
  | JUndefined | JNull => ""
  | _ => ToString e
  end.

(** [elems.join(sep)] *)
Definition Array_join (sep : string) (elems : list JsValue) : string :=
  concat_sep sep (map join_elem elems).

(** [s.slice(start, end)]; [None] for an omitted [end]. *)
Definition slice (s : string) (start : Z) (end_ : option Z) : string :=
  let len := Z.of_nat (String.length s) in
  let clamp i := if (i <? 0)%Z then Z.max (len + i) 0 else Z.min i len in
  let from := clamp start in
  let to := match end_ with None => len | Some e => clamp e end in
  String.substring (Z.to_nat from) (Z.to_nat (to - from)) s.

Definition endsWith (s suffix : string) : bool :=
  let n := String.length s in
  let m := String.length suffix in
  (m <=? n)%nat && (String.substring (n - m) m s =? suffix).

(** [o[key]] on a property list *)
Fixpoint lookup (key : string) (o : JsObject) : JsValue :=
  match o with
  | [] => JUndefined
  | (k, v) :: rest => if k =? key then v else lookup key rest
  end.

Definition hasKey (key : string) (o : JsObject) : bool :=
  existsb (fun kv => fst kv =? key) o.

(** The properties left by a rest pattern that names [key]. *)
Definition omit (key : string) (o : JsObject) : JsObject :=
  filter (fun kv => negb (fst kv =? key)) o.

(** [o[key] = v]: an existing key keeps its place, a new one goes last,
    which is the place JavaScript gives a new key that is not integer-like
    (an integer-like key is enumerated before the string keys). *)
Fixpoint set (key : string) (v : JsValue) (o : JsObject) : JsObject :=
  match o with
  | [] => [(key, v)]
  | (k, w) :: rest => if k =? key then (k, v) :: rest else (k, w) :: set key v rest
  end.

Fixpoint index_from (n : nat) (l : list JsValue) : JsObject :=
  match l with
  | [] => []
  | x :: rest => (Z_to_string (Z.of_nat n), x) :: index_from (S n) rest
  end.

Fixpoint chars (s : string) : list JsValue :=
  match s with
  | EmptyString => []
  | String c rest => JStr (String c EmptyString) :: chars rest
  end.

(** [Object.entries(v)] for a [v] that is neither [null] nor [undefined]:
    the own enumerable properties, also what [...v] spreads. *)
Definition entries (v : JsValue) : JsObject :=
  match v with
  | JObj props => props
  | JArr elems => index_from 0 elems
  | JStr s => index_from 0 (chars s)
  | _ => []
  end.

(** [{ ...o, ...v }]; spreading [null] or [undefined] adds nothing.  The
    properties of [v] are assigned one by one, so the order is the one of
    JavaScript as long as no key that is new to [o] is integer-like. *)
Definition spread (o : JsObject) (v : JsValue) : JsObject :=
  fold_left (fun acc kv => set (fst kv) (snd kv) acc) (entries v) o.

(** [v[key]] for the named properties the provider reads ([json],
    [records], [results]); the read throws on [null] and [undefined]. *)
Definition getProp (v : JsValue) (key : string) : JsError + JsValue :=
  match v with
  | JUndefined | JNull => inl (TypeError "Cannot read properties of null or undefined")
  | JObj props => inr (lookup key props)
  | _ => inr JUndefined
  end.

End Js.

Import Js.

(** ** Errors: [throw] and sequencing *)

Definition Res (A : Type) : Type := (JsError + A)%type.

Definition bind {A B : Type} (c : Res A) (k : A -> Res B) : Res B :=
  match c with
  | inl e => inl e
  | inr a => k a
  end.

Notation "x <- c ;; k" := (bind c (fun x => k))
  (at level 61, c at next level, right associativity).

(** [l.map(f)] for an [f] that may throw: the first throw ends the map. *)
Fixpoint mapM {A B : Type} (f : A -> Res B) (l : list A) : Res (list B) :=
  match l with
  | [] => inr []
  | x :: rest =>
      y <- f x ;;
      ys <- mapM f rest ;;
      inr (y :: ys)
  end.

(** ** The platform's query-string functions

    [URLSearchParams.prototype.toString] is the
    application/x-www-form-urlencoded serializer of the URL standard;
    [decodeURIComponent] is the one of ECMAScript, read on bytes: its check
    that the decoded bytes are well-formed UTF-8 is left out. *)

Module Url.

Definition is_unreserved (c : ascii) : bool :=
  let n := nat_of_ascii c in
  ((48 <=? n) && (n <=? 57) || (65 <=? n) && (n <=? 90)
   || (97 <=? n) && (n <=? 122)
   || (n =? 42) || (n =? 45) || (n =? 46) || (n =? 95))%nat.

Definition hex_digit (n : nat) : ascii :=
  match String.get n "0123456789ABCDEF" with
  | Some c => c
  | None => "0"%char
  end.

Definition hex_val (c : ascii) : option nat :=
  let n := nat_of_ascii c in
  if ((48 <=? n) && (n <=? 57))%nat then Some (n - 48)
  else if ((65 <=? n) && (n <=? 70))%nat then Some (n - 55)
  else if ((97 <=? n) && (n <=? 102))%nat then Some (n - 87)
  else None.

Definition encode_byte (c : ascii) : string :=
  if is_unreserved c then String c ""
  else if Ascii.eqb c " " then "+"
  else
    let n := nat_of_ascii c in
    String "%" (String (hex_digit (n / 16)) (String (hex_digit (n mod 16)) "")).

Fixpoint urlencode (s : string) : string :=
  match s with
  | EmptyString => ""
  | String c rest => encode_byte c ++ urlencode rest
  end.

(** [urlParams.toString()] *)
Definition serialize (pairs : list (string * string)) : string :=
  concat_sep "&" (map (fun kv => urlencode (fst kv) ++ "=" ++ urlencode (snd kv)) pairs).

Fixpoint decodeURIComponent (s : string) : Res string :=
  match s with
  | EmptyString => inr ""
  | String c rest =>
      if Ascii.eqb c "%" then
        match rest with
        | String h (String l rest') =>
            match hex_val h, hex_val l with
            | Some a, Some b =>
                r <- decodeURIComponent rest' ;;
                inr (String (ascii_of_nat (16 * a + b)) r)
            | _, _ => inl (URIError "URI malformed")
            end
        | _ => inl (URIError "URI malformed")
        end
      else
        r <- decodeURIComponent rest ;;
        inr (String c r)
  end.

End Url.

Import Url.

(** ** The filter compiler *)

Definition dquote : string := String (ascii_of_nat 34) "".

Definition betweenMessage : string :=
  "Array expected as filter value for filter type " ++ dquote ++ "between" ++ dquote ++ " (bt)".

Definition inMessage : string :=
  "Array expected as filter value for filter type " ++ dquote ++ "in" ++ dquote.

(** see https://github.com/mevdschee/php-crud-api#filters *)
Definition filterOperators : list string :=
  [ "cs" (* contain string *)
  ; "sw" (* start with *)
  ; "ew" (* end with *)
  ; "eq" (* equal *)
  ; "lt" (* lower than *)
  ; "le" (* lower or equal *)
  ; "ge" (* greater or equal *)
  ; "gt" (* greater than *)
  ; "bt" (* between *)
  ; "in" (* in *)
  ; "is" (* is null *)
  ].

Definition searchOperator : string := "q".
Definition APISearchParam : string := "search".
Definition APIFilterParam : string := "filter".

(** [filterOperators.includes(value)] *)
Definition isValidFilterOperator (value : string) : bool :=
  existsb (String.eqb value) filterOperators.

Definition formatFilterArguments (operator : string) (value : JsValue) : Res JsValue :=
  if operator =? "bt" then
    match value with
    | JArr elems =>
        inr (JStr (ToString (nth 0 elems JUndefined) ++ "," ++ ToString (nth 1 elems JUndefined)))
    | _ => inl (TypeError betweenMessage)
    end
  else if operator =? "in" then
    match value with
    | JArr elems => inr (JStr (Array_join "," elems))
    | _ => inl (TypeError inMessage)
    end
  else if operator =? "is" then
    inr JNull (* is null filter doesn't require any arguments *)
  else
    inr value.

(** The arrow function that [formatFilter] maps over the entries. *)
Definition formatFilterEntry (entry : string * JsValue) : Res (string * JsValue) :=
  let (key, value) := entry in
  if key =? searchOperator then inr (APISearchParam, value)
  else
    let suffix := slice key (-2) None in
    if (slice key (-3) (Some (-2)%Z) =? "_") && isValidFilterOperator suffix then
      let operator := suffix in
      arg <- formatFilterArguments operator value ;;
      inr (APIFilterParam,
           JStr (Array_join ","
                   (filter truthy [JStr (slice key 0 (Some (-3)%Z)); JStr operator; arg])))
    else if (slice key (-4) (Some (-2)%Z) =? "_n") && isValidFilterOperator suffix then
      (* negated operators *)
      let operator := suffix in
      arg <- formatFilterArguments operator value ;;
      inr (APIFilterParam,
           JStr (Array_join ","
                   (filter truthy [JStr (slice key 0 (Some (-4)%Z)); JStr ("n" ++ operator); arg])))
    else
      inr (APIFilterParam, JStr (key ++ ",eq," ++ ToString value)).

Definition formatFilter (filter : JsValue) : Res (list (string * JsValue)) :=
  mapM formatFilterEntry (entries filter).

(** ** Query string and URL *)

(** [urlParams.append(key, value)] on each pair, values coerced to strings. *)
Definition appendAll (urlParams : list (string * string)) (pairs : list (string * JsValue))
  : list (string * string) :=
  (urlParams ++ map (fun kv => (fst kv, ToString (snd kv))) pairs)%list.

Definition reservedMetaKeys : list string := ["order"; "page"; "filter"].

(** [meta ?? {}] *)
Definition orEmptyObject (meta : JsValue) : JsValue :=
  match meta with
  | JUndefined | JNull => JObj []
  | _ => meta
  end.

Definition formatParams (params : JsObject) : Res string :=
  let filter_ := lookup "filter" params in
  let meta := lookup "meta" params in
  let rest := omit "meta" (omit "filter" params) in
  let urlParams := appendAll [] rest in
  urlParams <- (if truthy filter_
                then pairs <- formatFilter filter_ ;; inr (appendAll urlParams pairs)
                else inr urlParams) ;;
  let urlParams :=
    appendAll urlParams
      (filter (fun kv => negb (existsb (String.eqb (fst kv)) reservedMetaKeys))
         (entries (orEmptyObject meta))) in
  let urlParamsString := serialize urlParams in
  if urlParamsString =? "" then inr ""
  else
    decoded <- decodeURIComponent urlParamsString ;;
    inr ("?" ++ decoded).

Definition getURL (apiUrl resource : string) (params : JsObject) : Res string :=
  let id := lookup "id" params in
  let ids := lookup "ids" params in
  let rest := omit "ids" (omit "id" params) in
  record <- (if truthy id then inr ("/" ++ ToString id)
             else if truthy ids then
               match ids with
               | JArr elems => inr ("/" ++ Array_join "," elems)
               | _ => inl (TypeError "ids.join is not a function")
               end
             else inr "") ;;
  query <- formatParams rest ;;
  inr (apiUrl ++ "/records/" ++ resource ++ record ++ query).

(** ** The data provider

    The injected HTTP client takes the URL and the options object
    ([undefined] when the call passes none) and resolves to the response
    object or throws.  An operation is a function of the log of the requests
    issued so far; [await] is sequencing. *)

Definition Request : Type := string * JsValue.

Definition Http (A : Type) : Type := list Request -> list Request * Res A.

Definition hret {A : Type} (a : A) : Http A := fun log => (log, inr a).

Definition hbind {A B : Type} (c : Http A) (k : A -> Http B) : Http B :=
  fun log =>
    match c log with
    | (log', inl e) => (log', inl e)
    | (log', inr a) => k a log'
    end.

Definition lift {A : Type} (r : Res A) : Http A := fun log => (log, r).

Notation "x <~ c ;; k" := (hbind c (fun x => k))
  (at level 61, c at next level, right associativity).

Record TreeQLDataProvider : Type := {
  apiUrl : string;
  httpClient : string -> JsValue -> Res JsValue
}.

(** The constructor strips one trailing slash. *)
Definition new_TreeQLDataProvider (_apiUrl : string)
  (httpClient : string -> JsValue -> Res JsValue) : TreeQLDataProvider :=
  {| apiUrl := if endsWith _apiUrl "/" then slice _apiUrl 0 (Some (-1)%Z) else _apiUrl;
     httpClient := httpClient |}.

Definition getDataProvider := new_TreeQLDataProvider.

(** [await this.httpClient(url, options)] *)
Definition fetch (self : TreeQLDataProvider) (url : string) (options : JsValue) : Http JsValue :=
  fun log => ((log ++ [(url, options)])%list, httpClient self url options).

Record SortPayload : Type := { field : string; order : string }.
Record PaginationPayload : Type := { page : Z; perPage : Z }.

Record GetListParams : Type := {
  gl_pagination : PaginationPayload;
  gl_sort : SortPayload;
  gl_filter : JsValue;
  gl_meta : JsValue
}.

Record GetOneParams : Type := { go_id : JsValue; go_meta : JsValue }.

Record GetManyParams : Type := { gm_ids : JsValue; gm_meta : JsValue }.

Record GetManyReferenceParams : Type := {
  gr_target : string;
  gr_id : JsValue;
  gr_pagination : PaginationPayload;
  gr_sort : SortPayload;
  gr_filter : JsValue;
  gr_meta : JsValue
}.

Record UpdateParams : Type := {
  up_id : JsValue;
  up_data : JsValue;
  up_previousData : JsValue;
  up_meta : JsValue
}.

Record UpdateManyParams : Type := { um_ids : JsValue; um_data : JsValue; um_meta : JsValue }.

Record CreateParams : Type := { cr_data : JsValue; cr_meta : JsValue }.

Record DeleteParams : Type := {
  de_id : JsValue;
  de_previousData : JsValue;
  de_meta : JsValue
}.

Record DeleteManyParams : Type := { dm_ids : JsValue; dm_meta : JsValue }.

Section Provider.

(** [JSON.stringify], a function of the platform. *)
Variable JSON_stringify : JsValue -> JsValue.

Variable self : TreeQLDataProvider.

Definition orderParam (sort : SortPayload) : JsValue :=
  JStr (field sort ++ "," ++ order sort).

Definition pageParam (pagination : PaginationPayload) : JsValue :=
  JStr (Z_to_string (page pagination) ++ "," ++ Z_to_string (perPage pagination)).

Definition getList (resource : string) (params : GetListParams) : Http JsValue :=
  url <~ lift (getURL (apiUrl self) resource
                 [ ("order", orderParam (gl_sort params))
                 ; ("page", pageParam (gl_pagination params))
                 ; ("filter", gl_filter params)
                 ; ("meta", gl_meta params) ]) ;;
  response <~ fetch self url JUndefined ;;
  json <~ lift (getProp response "json") ;;
  records <~ lift (getProp json "records") ;;
  results <~ lift (getProp json "results") ;;
  hret (JObj [("data", records); ("total", results)]).

Definition getOne (resource : string) (params : GetOneParams) : Http JsValue :=
  url <~ lift (getURL (apiUrl self) resource
                 [("id", go_id params); ("meta", go_meta params)]) ;;
  response <~ fetch self url JUndefined ;;
  json <~ lift (getProp response "json") ;;
  hret (JObj [("data", json)]).

Definition getMany (resource : string) (params : GetManyParams) : Http JsValue :=
  url <~ lift (getURL (apiUrl self) resource
                 [("ids", gm_ids params); ("meta", gm_meta params)]) ;;
  response <~ fetch self url JUndefined ;;
  json <~ lift (getProp response "json") ;;
  hret (JObj [("data", if isArray json then json else JArr [json])]).

Definition getManyReference (resource : string) (params : GetManyReferenceParams)
  : Http JsValue :=
  url <~ lift (getURL (apiUrl self) resource
                 [ ("order", orderParam (gr_sort params))
                 ; ("page", pageParam (gr_pagination params))
                 ; ("filter", JObj (set (gr_target params) (gr_id params)
                                      (spread [] (gr_filter params))))
                 ; ("meta", gr_meta params) ]) ;;
  response <~ fetch self url JUndefined ;;
  json <~ lift (getProp response "json") ;;
  records <~ lift (getProp json "records") ;;
  results <~ lift (getProp json "results") ;;
  hret (JObj [("data", records); ("total", results)]).

Definition update (resource : string) (params : UpdateParams) : Http JsValue :=
  url <~ lift (getURL (apiUrl self) resource
                 [("id", up_id params); ("meta", up_meta params)]) ;;
  _ <~ fetch self url
         (JObj [("method", JStr "PUT"); ("body", JSON_stringify (up_data params))]) ;;
  hret (JObj [("data",
               JObj (spread (spread [("id", up_id params)] (up_previousData params))
                       (up_data params)))]).

Definition updateMany (resource : string) (params : UpdateManyParams) : Http JsValue :=
  url <~ lift (getURL (apiUrl self) resource
                 [("ids", um_ids params); ("meta", um_meta params)]) ;;
  _ <~ fetch self url
         (JObj [("method", JStr "PUT"); ("body", JSON_stringify (um_data params))]) ;;
  hret (JObj [("data", um_ids params)]).

Definition create (resource : string) (params : CreateParams) : Http JsValue :=
  url <~ lift (getURL (apiUrl self) resource [("meta", cr_meta params)]) ;;
  response <~ fetch self url
         (JObj [("method", JStr "POST"); ("body", JSON_stringify (cr_data params))]) ;;
  json <~ lift (getProp response "json") ;;
  hret (JObj [("data", JObj (set "id" json (spread [] (cr_data params))))]).

Definition delete (resource : string) (params : DeleteParams) : Http JsValue :=
  url <~ lift (getURL (apiUrl self) resource
                 [("id", de_id params); ("meta", de_meta params)]) ;;
  _ <~ fetch self url (JObj [("method", JStr "DELETE")]) ;;
  hret (JObj [("data", JObj (spread [("id", de_id params)] (de_previousData params)))]).

Definition deleteMany (resource : string) (params : DeleteManyParams) : Http JsValue :=
  url <~ lift (getURL (apiUrl self) resource
                 [("ids", dm_ids params); ("meta", dm_meta params)]) ;;
  _ <~ fetch self url (JObj [("method", JStr "DELETE")]) ;;
  hret (JObj [("data", dm_ids params)]).

End Provider.

(** ** Vocabulary of the statements *)

(** The pair emitted for the components [fld], [code] and [arg]: the
    components that are truthy, joined with commas. *)
Definition filterPair (fld code : string) (arg : JsValue) : string * JsValue :=
  (APIFilterParam, JStr (Array_join "," (filter truthy [JStr fld; JStr code; arg]))).

(** [key] is [fld], a separator and an operator code. *)
Definition plainKey (key fld op : string) : Prop :=
  In op filterOperators /\ key = fld ++ "_" ++ op.

Definition negatedKey (key fld op : string) : Prop :=
  In op filterOperators /\ key = fld ++ "_n" ++ op.

(** What the compiler emits for one entry of the filter, by the shape of
    its key: a suffixed key with a field name and an argument that is
    truthy gives [field,code,argument]; the null test gives [field,code];
    any other key but the search key gives [key,eq,value]. *)
Definition emitsBySuffix (entry pair : string * JsValue) : Prop :=
  let (key, value) := entry in
  (forall fld op arg,
      plainKey key fld op -> fld <> "" ->
      formatFilterArguments op value = inr arg -> truthy arg = true ->
      pair = (APIFilterParam, JStr (fld ++ "," ++ op ++ "," ++ ToString arg)))
  /\ (forall fld op arg,
      negatedKey key fld op -> fld <> "" ->
      formatFilterArguments op value = inr arg -> truthy arg = true ->
      pair = (APIFilterParam, JStr (fld ++ ",n" ++ op ++ "," ++ ToString arg)))
  /\ (forall fld, key = fld ++ "_is" -> fld <> "" ->
      pair = (APIFilterParam, JStr (fld ++ ",is")))
  /\ (forall fld, key = fld ++ "_nis" -> fld <> "" ->
      pair = (APIFilterParam, JStr (fld ++ ",nis")))
  /\ (key <> searchOperator ->
      (forall fld op, ~ plainKey key fld op) ->
      (forall fld op, ~ negatedKey key fld op) ->
      pair = (APIFilterParam, JStr (key ++ ",eq," ++ ToString value))).

(** The suffix rule as the specification words it: a key [field_op] always
    gives [field,op,formatted] for some formatted value. *)
Definition emitsFieldOpValue (entry pair : string * JsValue) : Prop :=
  let (key, _) := entry in
  forall fld op,
    plainKey key fld op ->
    exists formatted : string,
      pair = (APIFilterParam, JStr (fld ++ "," ++ op ++ "," ++ formatted)).

(** The message an entry makes the compiler throw, if any: a between or
    in operator, plain or negated, on a value that is not an array. *)
Definition offence (entry : string * JsValue) : option string :=
  let (key, value) := entry in
  if isArray value then None
  else if endsWith key "_bt" || endsWith key "_nbt" then Some betweenMessage
  else if endsWith key "_in" || endsWith key "_nin" then Some inMessage
  else None.

(** The message of the first offending entry in enumeration order. *)
Fixpoint firstOffence (props : JsObject) : option string :=
  match props with
  | [] => None
  | entry :: rest =>
      match offence entry with
      | Some message => Some message
      | None => firstOffence rest
      end
  end.

(** A name or value as it stands in the decoded query string: every
    character literal, but a space as a plus sign. *)
Fixpoint spaceAsPlus (s : string) : string :=
  match s with
  | EmptyString => ""
  | String c rest => String (if Ascii.eqb c " " then "+"%char else c) (spaceAsPlus rest)
  end.

Definition literalQuery (pairs : list (string * string)) : string :=
  concat_sep "&" (map (fun kv => spaceAsPlus (fst kv) ++ "=" ++ spaceAsPlus (snd kv)) pairs).

(** The pairs [formatParams] collects: the remaining parameters, then the
    compiled filter, then the metadata without the reserved keys. *)
Definition queryPairs (params : JsObject) : Res (list (string * string)) :=
  let rest := omit "meta" (omit "filter" params) in
  filterPairs <- (if truthy (lookup "filter" params)
                  then formatFilter (lookup "filter" params)
                  else inr []) ;;
  inr (appendAll
         (appendAll (appendAll [] rest) filterPairs)
         (filter (fun kv => negb (existsb (String.eqb (fst kv)) reservedMetaKeys))
            (entries (orEmptyObject (lookup "meta" params))))).

(** The metadata pairs that reach the query string. *)
Definition metaPairs (meta : JsValue) : list (string * JsValue) :=
  filter (fun kv => negb (existsb (String.eqb (fst kv)) reservedMetaKeys))
    (entries (orEmptyObject meta)).

(** The query string made of the metadata alone. *)
Definition metaQuery (meta : JsValue) : string :=
  let pairs := appendAll [] (metaPairs meta) in
  match pairs with
  | [] => ""
  | _ :: _ => "?" ++ literalQuery pairs
  end.

(** The URL of the operations on one record: the segment of the record is
    there when the identifier is truthy. *)
Definition recordURL (apiUrl resource : string) (id meta : JsValue) : string :=
  apiUrl ++ "/records/" ++ resource
  ++ (if truthy id then "/" ++ ToString id else "") ++ metaQuery meta.

(** The operators whose argument is the value itself. *)
Definition comparisonOperators : list string :=
  ["cs"; "sw"; "ew"; "eq"; "lt"; "le"; "ge"; "gt"].

(** The helper of the test suite: [formatParams] on a filter alone. *)
Definition formatFilterQuery (filter : JsObject) : Res string :=
  formatParams [("filter", JObj filter)].

(** A key that JavaScript enumerates before the string keys, whatever the
    order of insertion: a canonical decimal numeral (digits only, no leading
    zero but for "0"). *)
Fixpoint allDigits (s : string) : bool :=
  match s with
  | EmptyString => true
  | String c rest =>
      let n := nat_of_ascii c in
      ((48 <=? n) && (n <=? 57))%nat && allDigits rest
  end.

Definition integerLikeKey (key : string) : bool :=
  match key with
  | EmptyString => false
  | String c rest => allDigits key && (negb (Ascii.eqb c "0") || (rest =? ""))
  end.

(** * Properties *)

(** ** Strings and slices *)

Section Slices.

Lemma append_nil_r (s : string) : s ++ "" = s.
Proof. induction s as [|c s IH]; simpl; [reflexivity | now rewrite IH]. Qed.

Lemma append_assoc (a b c : string) : (a ++ b) ++ c = a ++ b ++ c.
Proof. induction a as [|x a IH]; simpl; [reflexivity | now rewrite IH]. Qed.

Lemma length_append (a b : string) :
  String.length (a ++ b) = (String.length a + String.length b)%nat.
Proof. induction a as [|x a IH]; simpl; [reflexivity | now rewrite IH]. Qed.

Lemma substring_0_0 (s : string) : substring 0 0 s = "".
Proof. destruct s; reflexivity. Qed.

Lemma substring_prefix (a b : string) : substring 0 (String.length a) (a ++ b) = a.
Proof.
  induction a as [|x a IH]; simpl.
  - apply substring_0_0.
  - now rewrite IH.
Qed.

Lemma substring_skip (a b : string) (n m : nat) :
  substring (String.length a + n) m (a ++ b) = substring n m b.
Proof. induction a as [|x a IH]; simpl; [reflexivity | exact IH]. Qed.

(** The piece [m] of [a ++ m ++ b] is the substring at [length a]. *)
Lemma substring_middle (a m b : string) :
  substring (String.length a) (String.length m) (a ++ m ++ b) = m.
Proof.
  rewrite <- (Nat.add_0_r (String.length a)), substring_skip.
  apply substring_prefix.
Qed.

Lemma substring_all (s : string) : substring 0 (String.length s) s = s.
Proof. induction s as [|c s IH]; simpl; [reflexivity | now rewrite IH]. Qed.

Lemma substring_split (s : string) (n : nat) :
  (n <= String.length s)%nat ->
  s = substring 0 n s ++ substring n (String.length s - n) s.
Proof.
  revert n; induction s as [|c s IH]; intros n Hn.
  - destruct n; reflexivity.
  - destruct n as [|n].
    + rewrite substring_0_0, Nat.sub_0_r, substring_all. reflexivity.
    + simpl in Hn. simpl. f_equal. apply IH. lia.
Qed.

Lemma substring_length (s : string) (n m : nat) :
  (n + m <= String.length s)%nat -> String.length (substring n m s) = m.
Proof.
  revert n m; induction s as [|c s IH]; intros n m H; simpl in *.
  - assert (n = 0 /\ m = 0)%nat as [-> ->] by lia. reflexivity.
  - destruct n as [|n].
    + destruct m as [|m]; simpl; [reflexivity|]. f_equal. apply (IH 0%nat). lia.
    + apply IH. lia.
Qed.

(** A string of at least [n] characters ends in some [n] characters. *)
Lemma split_last (s : string) (n : nat) :
  (n <= String.length s)%nat ->
  exists a b, s = a ++ b /\ String.length b = n.
Proof.
  intros Hn.
  exists (substring 0 (String.length s - n) s),
         (substring (String.length s - n) (String.length s - (String.length s - n)) s).
  split.
  - apply substring_split. lia.
  - rewrite substring_length; lia.
Qed.

Lemma slice_window (a m b : string) (i j : Z) :
  i = (- Z.of_nat (String.length m + String.length b))%Z ->
  j = (- Z.of_nat (String.length b))%Z ->
  (0 < String.length b)%nat ->
  slice (a ++ m ++ b) i (Some j) = m.
Proof.
  intros -> -> Hb. unfold slice. cbv zeta. rewrite !length_append.
  destruct (Z.ltb_spec (- Z.of_nat (String.length m + String.length b)) 0); [|lia].
  destruct (Z.ltb_spec (- Z.of_nat (String.length b)) 0); [|lia].
  replace (Z.to_nat (Z.max _ 0)) with (String.length a) by lia.
  replace (Z.to_nat _) with (String.length m) by lia.
  apply substring_middle.
Qed.

Lemma slice_tail (a b : string) (i : Z) :
  i = (- Z.of_nat (String.length b))%Z ->
  (0 < String.length b)%nat ->
  slice (a ++ b) i None = b.
Proof.
  intros -> Hb. unfold slice. cbv zeta. rewrite length_append.
  destruct (Z.ltb_spec (- Z.of_nat (String.length b)) 0); [|lia].
  replace (Z.to_nat (_ - _)) with (String.length b) by lia.
  replace (Z.to_nat _) with (String.length a) by lia.
  rewrite <- (append_nil_r b) at 2. apply substring_middle.
Qed.

Lemma slice_head (a b : string) (j : Z) :
  j = (- Z.of_nat (String.length b))%Z ->
  (0 < String.length b)%nat ->
  slice (a ++ b) 0 (Some j) = a.
Proof.
  intros -> Hb. unfold slice. cbv zeta. rewrite length_append.
  destruct (Z.ltb_spec (- Z.of_nat (String.length b)) 0); [|lia].
  change (0 <? 0)%Z with false. cbv iota.
  replace (Z.to_nat (Z.min 0 _)) with 0%nat by lia.
  replace (Z.to_nat _) with (String.length a) by lia.
  apply substring_prefix.
Qed.

End Slices.

(** ** The operator vocabulary and the shape of a key *)

Section KeyShapes.

Lemma isValidFilterOperator_In (s : string) :
  isValidFilterOperator s = true <-> In s filterOperators.
Proof.
  unfold isValidFilterOperator. rewrite existsb_exists. split.
  - intros [x [Hx Heq]]. apply String.eqb_eq in Heq. now subst.
  - intros H. exists s. split; [assumption | apply String.eqb_refl].
Qed.

(** Every operator code has exactly two characters. *)
Lemma operator_two_chars (op : string) :
  In op filterOperators -> exists c1 c2, op = String c1 (String c2 "").
Proof.
  unfold filterOperators. simpl.
  intros H; repeat (destruct H as [<- | H]; [do 2 eexists; reflexivity|]).
  contradiction.
Qed.

Lemma long_key_not_search (a b : string) :
  (2 <= String.length b)%nat -> (a ++ b =? searchOperator) = false.
Proof.
  intros Hb. apply String.eqb_neq. intros Heq.
  apply (f_equal String.length) in Heq. rewrite length_append in Heq.
  simpl in Heq. lia.
Qed.

(** The three slices [formatFilterEntry] takes of a key [field_op]. *)
Lemma slices_plain (fld : string) (c1 c2 : ascii) :
  let key := fld ++ "_" ++ String c1 (String c2 "") in
  slice key (-2) None = String c1 (String c2 "")
  /\ slice key (-3) (Some (-2)%Z) = "_"
  /\ slice key 0 (Some (-3)%Z) = fld.
Proof.
  cbv zeta. repeat split.
  - rewrite <- append_assoc.
    exact (slice_tail (fld ++ "_") (String c1 (String c2 "")) (-2) eq_refl
             (Nat.lt_0_succ _)).
  - exact (slice_window fld "_" (String c1 (String c2 "")) (-3) (-2) eq_refl eq_refl
             (Nat.lt_0_succ _)).
  - exact (slice_head fld ("_" ++ String c1 (String c2 "")) (-3) eq_refl
             (Nat.lt_0_succ _)).
Qed.

(** The slices of a key [field_nop]. *)
Lemma slices_negated (fld : string) (c1 c2 : ascii) :
  let key := fld ++ "_n" ++ String c1 (String c2 "") in
  slice key (-2) None = String c1 (String c2 "")
  /\ slice key (-3) (Some (-2)%Z) = "n"
  /\ slice key (-4) (Some (-2)%Z) = "_n"
  /\ slice key 0 (Some (-4)%Z) = fld.
Proof.
  cbv zeta. repeat split.
  - rewrite <- append_assoc.
    exact (slice_tail (fld ++ "_n") (String c1 (String c2 "")) (-2) eq_refl
             (Nat.lt_0_succ _)).
  - change (fld ++ "_n" ++ String c1 (String c2 ""))
      with (fld ++ "_" ++ "n" ++ String c1 (String c2 "")).
    rewrite <- append_assoc.
    exact (slice_window (fld ++ "_") "n" (String c1 (String c2 "")) (-3) (-2)
             eq_refl eq_refl (Nat.lt_0_succ _)).
  - exact (slice_window fld "_n" (String c1 (String c2 "")) (-4) (-2) eq_refl eq_refl
             (Nat.lt_0_succ _)).
  - exact (slice_head fld ("_n" ++ String c1 (String c2 "")) (-4) eq_refl
             (Nat.lt_0_succ _)).
Qed.

(** A string of length [n] is its [n] characters. *)
Lemma length_3_inv (b : string) :
  String.length b = 3%nat -> exists c1 c2 c3, b = String c1 (String c2 (String c3 "")).
Proof.
  destruct b as [|c1 [|c2 [|c3 [|c4 b]]]]; simpl; intros H; try discriminate.
  now exists c1, c2, c3.
Qed.

Lemma length_4_inv (b : string) :
  String.length b = 4%nat ->
  exists c0 c1 c2 c3, b = String c0 (String c1 (String c2 (String c3 ""))).
Proof.
  destruct b as [|c0 [|c1 [|c2 [|c3 [|c4 b]]]]]; simpl; intros H; try discriminate.
  now exists c0, c1, c2, c3.
Qed.

(** When the first test of [formatFilterEntry] succeeds the key is
    [field_op] for an operator code [op]. *)
Lemma plain_test_shape (key : string) :
  slice key (-3) (Some (-2)%Z) = "_" ->
  In (slice key (-2) None) filterOperators ->
  exists fld op, key = fld ++ "_" ++ op /\ In op filterOperators.
Proof.
  intros H3 H2.
  destruct (Nat.le_gt_cases 3 (String.length key)) as [Hlen | Hlen].
  - destruct (split_last key 3 Hlen) as (a & b & -> & Hb).
    destruct (length_3_inv b Hb) as (c1 & c2 & c3 & ->).
    pose proof (slice_window a (String c1 "") (String c2 (String c3 "")) (-3) (-2)
                  eq_refl eq_refl (Nat.lt_0_succ _)) as E3.
    cbn [append] in E3. rewrite E3 in H3.
    injection H3 as ->.
    destruct (slices_plain a c2 c3) as (E2 & _ & _).
    cbn [append] in E2. rewrite E2 in H2.
    now exists a, (String c2 (String c3 "")).
  - destruct key as [|c1 [|c2 [|c3 key]]]; simpl in Hlen; try lia;
      vm_compute in H3; discriminate.
Qed.

(** When the second test succeeds the key is [field_nop]. *)
Lemma negated_test_shape (key : string) :
  slice key (-4) (Some (-2)%Z) = "_n" ->
  In (slice key (-2) None) filterOperators ->
  exists fld op, key = fld ++ "_n" ++ op /\ In op filterOperators.
Proof.
  intros H4 H2.
  destruct (Nat.le_gt_cases 4 (String.length key)) as [Hlen | Hlen].
  - destruct (split_last key 4 Hlen) as (a & b & -> & Hb).
    destruct (length_4_inv b Hb) as (c0 & c1 & c2 & c3 & ->).
    pose proof (slice_window a (String c0 (String c1 "")) (String c2 (String c3 ""))
                  (-4) (-2) eq_refl eq_refl (Nat.lt_0_succ _)) as E4.
    cbn [append] in E4. rewrite E4 in H4.
    injection H4 as -> ->.
    destruct (slices_negated a c2 c3) as (E2 & _).
    cbn [append] in E2. rewrite E2 in H2.
    now exists a, (String c2 (String c3 "")).
  - destruct key as [|c1 [|c2 [|c3 [|c4 key]]]]; simpl in Hlen; try lia;
      vm_compute in H4; discriminate.
Qed.

End KeyShapes.

(** ** What [formatFilterEntry] does with each shape of key *)

Section Entries.

Lemma entry_search (value : JsValue) :
  formatFilterEntry (searchOperator, value) = inr (APISearchParam, value).
Proof. reflexivity. Qed.

Lemma entry_plain (fld op : string) (value : JsValue) :
  In op filterOperators ->
  formatFilterEntry (fld ++ "_" ++ op, value) =
    (arg <- formatFilterArguments op value ;; inr (filterPair fld op arg)).
Proof.
  intros Hop. destruct (operator_two_chars op Hop) as (c1 & c2 & ->).
  destruct (slices_plain fld c1 c2) as (H2 & H3 & H0).
  unfold formatFilterEntry.
  rewrite long_key_not_search by (simpl; lia).
  rewrite H2, H3, H0.
  change ("_" =? "_") with true.
  apply isValidFilterOperator_In in Hop. rewrite Hop. reflexivity.
Qed.

Lemma entry_negated (fld op : string) (value : JsValue) :
  In op filterOperators ->
  formatFilterEntry (fld ++ "_n" ++ op, value) =
    (arg <- formatFilterArguments op value ;; inr (filterPair fld ("n" ++ op) arg)).
Proof.
  intros Hop. destruct (operator_two_chars op Hop) as (c1 & c2 & ->).
  destruct (slices_negated fld c1 c2) as (H2 & H3 & H4 & H0).
  unfold formatFilterEntry.
  rewrite long_key_not_search by (simpl; lia).
  rewrite H2, H3, H4, H0.
  change ("n" =? "_") with false. change ("_n" =? "_n") with true.
  apply isValidFilterOperator_In in Hop. rewrite Hop. reflexivity.
Qed.

Lemma entry_default (key : string) (value : JsValue) :
  key <> searchOperator ->
  (forall fld op, In op filterOperators -> key <> fld ++ "_" ++ op) ->
  (forall fld op, In op filterOperators -> key <> fld ++ "_n" ++ op) ->
  formatFilterEntry (key, value) =
    inr (APIFilterParam, JStr (key ++ ",eq," ++ ToString value)).
Proof.
  intros Hq Hplain Hneg. unfold formatFilterEntry.
  apply String.eqb_neq in Hq. rewrite Hq.
  destruct (isValidFilterOperator (slice key (-2) None)) eqn:Hvalid.
  2: { rewrite !andb_false_r. reflexivity. }
  apply isValidFilterOperator_In in Hvalid.
  rewrite !andb_true_r.
  destruct (String.eqb_spec (slice key (-3) (Some (-2)%Z)) "_") as [H3 | _].
  { destruct (plain_test_shape key H3 Hvalid) as (fld & op & -> & Hop).
    now elim (Hplain fld op Hop). }
  destruct (String.eqb_spec (slice key (-4) (Some (-2)%Z)) "_n") as [H4 | _].
  { destruct (negated_test_shape key H4 Hvalid) as (fld & op & -> & Hop).
    now elim (Hneg fld op Hop). }
  reflexivity.
Qed.

End Entries.

(** ** The filter compiler, entry by entry *)

Section Compiler.

(** A successful [formatFilter] emits one pair per entry, in order. *)
Lemma mapM_Forall2 {A B : Type} (f : A -> Res B) (l : list A) (out : list B) :
  mapM f l = inr out -> Forall2 (fun x y => f x = inr y) l out.
Proof.
  revert out; induction l as [|x l IH]; simpl; intros out H.
  - injection H as <-. constructor.
  - destruct (f x) as [e|y] eqn:Hx; simpl in H; [discriminate|].
    destruct (mapM f l) as [e|ys]; simpl in H; [discriminate|].
    injection H as <-. constructor; [assumption | now apply IH].
Qed.

Lemma truthy_JStr (s : string) : s <> "" -> truthy (JStr s) = true.
Proof. intros H. simpl. apply String.eqb_neq in H. now rewrite H. Qed.

Lemma join_elem_truthy (v : JsValue) : truthy v = true -> join_elem v = ToString v.
Proof. destruct v; simpl; intros H; try discriminate; reflexivity. Qed.

(** With a field name and a truthy argument all three components stay. *)
Lemma filterPair_full (fld code : string) (arg : JsValue) :
  fld <> "" -> code <> "" -> truthy arg = true ->
  filterPair fld code arg =
    (APIFilterParam, JStr (fld ++ "," ++ code ++ "," ++ ToString arg)).
Proof.
  intros Hf Hc Ha. unfold filterPair. cbn [filter].
  rewrite (truthy_JStr fld Hf), (truthy_JStr code Hc), Ha.
  unfold Array_join. cbn [map concat_sep join_elem ToString].
  now rewrite (join_elem_truthy arg Ha).
Qed.

(** The null test drops its argument. *)
Lemma filterPair_null (fld code : string) :
  fld <> "" -> code <> "" ->
  filterPair fld code JNull = (APIFilterParam, JStr (fld ++ "," ++ code)).
Proof.
  intros Hf Hc. unfold filterPair. cbn [filter].
  rewrite (truthy_JStr fld Hf), (truthy_JStr code Hc). reflexivity.
Qed.

Lemma operator_nonempty (op : string) : In op filterOperators -> op <> "".
Proof. intros H. destruct (operator_two_chars op H) as (c1 & c2 & ->). discriminate. Qed.

Lemma is_operator : In "is" filterOperators.
Proof. apply isValidFilterOperator_In. reflexivity. Qed.

Lemma formatFilterEntry_emitsBySuffix (entry pair : string * JsValue) :
  formatFilterEntry entry = inr pair -> emitsBySuffix entry pair.
Proof.
  destruct entry as [key value]. intros H. unfold emitsBySuffix.
  split; [|split; [|split; [|split]]].
  - intros fld op arg [Hop ->] Hf Harg Ht.
    rewrite (entry_plain fld op value Hop), Harg in H. simpl in H.
    injection H as <-. apply filterPair_full; auto using operator_nonempty.
  - intros fld op arg [Hop ->] Hf Harg Ht.
    rewrite (entry_negated fld op value Hop), Harg in H. simpl in H.
    injection H as <-.
    rewrite filterPair_full; auto; discriminate.
  - intros fld -> Hf.
    change (fld ++ "_is") with (fld ++ "_" ++ "is") in H.
    rewrite (entry_plain fld "is" value is_operator) in H. simpl in H.
    injection H as <-. apply filterPair_null; [assumption | discriminate].
  - intros fld -> Hf.
    change (fld ++ "_nis") with (fld ++ "_n" ++ "is") in H.
    rewrite (entry_negated fld "is" value is_operator) in H. simpl in H.
    injection H as <-. apply filterPair_null; [assumption | discriminate].
  - intros Hq Hplain Hneg.
    rewrite entry_default in H; try assumption.
    + now injection H as <-.
    + intros fld op Hop E. apply (Hplain fld op). now split.
    + intros fld op Hop E. apply (Hneg fld op). now split.
Qed.

End Compiler.

(** ** Suffix parsing (C1) *)

(** C1, as amended.  For every filter mapping that compiles, the pairs are
    emitted entry by entry and in order, and for each entry whose key is not
    the search key: a key [field_op] ([field_nop]) with [op] in the
    vocabulary, a non-empty field and a truthy formatted argument emits
    (filter, "field,op,argument") ((filter, "field,nop,argument")); the null
    test [field_is] ([field_nis]) emits (filter, "field,is")
    ((filter, "field,nis")) with no value component; every other key emits
    (filter, "key,eq,value") with the whole key as the field name. *)
Theorem formatFilter_by_suffix (props : JsObject) (out : list (string * JsValue)) :
  formatFilter (JObj props) = inr out ->
  Forall2 emitsBySuffix props out.
Proof.
  intros H. unfold formatFilter in H. cbn [entries] in H.
  apply mapM_Forall2 in H. revert H. apply Forall2_impl.
  exact formatFilterEntry_emitsBySuffix.
Qed.

Lemma formatFilter_by_suffix_witness :
  let props := [ ("comment_cs", JNum 4); ("comment_nlt", JNum 4)
               ; ("comment_is", JNum 4); ("comment_nxy", JNum 4) ] in
  let out := [ (APIFilterParam, JStr "comment,cs,4"); (APIFilterParam, JStr "comment,nlt,4")
             ; (APIFilterParam, JStr "comment,is"); (APIFilterParam, JStr "comment_nxy,eq,4") ] in
  formatFilter (JObj props) = inr out /\ Forall2 emitsBySuffix props out.
Proof.
  cbv zeta. split.
  - reflexivity.
  - apply formatFilter_by_suffix. reflexivity.
Defined.

(** C1 as worded fails: the null test emits no value component, a falsy
    value is dropped, and so is an empty field name. *)
Lemma formatFilter_by_suffix_counterexample :
  let props := [("comment_is", JNum 4); ("comment_eq", JNum 0); ("_eq", JNum 4)] in
  let out := [ (APIFilterParam, JStr "comment,is"); (APIFilterParam, JStr "comment,eq")
             ; (APIFilterParam, JStr "eq,4") ] in
  formatFilter (JObj props) = inr out
  /\ Forall2 (fun entry pair => ~ emitsFieldOpValue entry pair) props out.
Proof.
  cbv zeta. split; [reflexivity|].
  repeat constructor; unfold emitsFieldOpValue; intros H.
  - destruct (H "comment" "is") as [fv E]; [split; [apply is_operator | reflexivity]|].
    discriminate E.
  - destruct (H "comment" "eq") as [fv E];
      [split; [apply isValidFilterOperator_In|]; reflexivity|].
    discriminate E.
  - destruct (H "" "eq") as [fv E];
      [split; [apply isValidFilterOperator_In|]; reflexivity|].
    discriminate E.
Qed.

(** ** Type errors (C2) *)

Section TypeErrors.

Lemma endsWith_inv (s suffix : string) :
  endsWith s suffix = true -> exists a, s = a ++ suffix.
Proof.
  unfold endsWith. intros H. apply andb_prop in H as [Hle Heq].
  apply Nat.leb_le in Hle. apply String.eqb_eq in Heq.
  exists (substring 0 (String.length s - String.length suffix) s).
  rewrite <- Heq at 2.
  rewrite (substring_split s (String.length s - String.length suffix)) at 1 by lia.
  do 2 f_equal. lia.
Qed.

Lemma endsWith_append (a suffix : string) : endsWith (a ++ suffix) suffix = true.
Proof.
  unfold endsWith. rewrite length_append. apply andb_true_intro. split.
  - apply Nat.leb_le. lia.
  - apply String.eqb_eq.
    replace (String.length a + String.length suffix - String.length suffix)%nat
      with (String.length a) by lia.
    rewrite <- (append_nil_r suffix) at 2. apply substring_middle.
Qed.

Lemma formatFilterArguments_array (op : string) (elems : list JsValue) :
  exists arg, formatFilterArguments op (JArr elems) = inr arg.
Proof.
  unfold formatFilterArguments.
  destruct (op =? "bt"); [eexists; reflexivity|].
  destruct (op =? "in"); [eexists; reflexivity|].
  destruct (op =? "is"); eexists; reflexivity.
Qed.

Lemma formatFilterArguments_between (value : JsValue) :
  isArray value = false ->
  formatFilterArguments "bt" value = inl (TypeError betweenMessage).
Proof. destruct value; simpl; intros H; try discriminate; reflexivity. Qed.

Lemma formatFilterArguments_in (value : JsValue) :
  isArray value = false ->
  formatFilterArguments "in" value = inl (TypeError inMessage).
Proof. destruct value; simpl; intros H; try discriminate; reflexivity. Qed.

(** Only [bt] and [in] can throw. *)
Lemma formatFilterArguments_other (op : string) (value : JsValue) :
  In op filterOperators -> op <> "bt" -> op <> "in" ->
  exists arg, formatFilterArguments op value = inr arg.
Proof.
  intros Hop Hbt Hin. unfold formatFilterArguments.
  apply String.eqb_neq in Hbt, Hin. rewrite Hbt, Hin.
  destruct (op =? "is"); eexists; reflexivity.
Qed.

Lemma between_operator : In "bt" filterOperators.
Proof. apply isValidFilterOperator_In. reflexivity. Qed.

Lemma in_operator : In "in" filterOperators.
Proof. apply isValidFilterOperator_In. reflexivity. Qed.

(** An offending entry makes the compiler throw its message. *)
Lemma offence_throws (key : string) (value : JsValue) (message : string) :
  offence (key, value) = Some message ->
  formatFilterEntry (key, value) = inl (TypeError message).
Proof.
  unfold offence. destruct (isArray value) eqn:Harr; [discriminate|].
  destruct (endsWith key "_bt") eqn:E1.
  { intros [= <-]. apply endsWith_inv in E1 as [a ->].
    change (a ++ "_bt") with (a ++ "_" ++ "bt").
    rewrite (entry_plain a "bt" value between_operator).
    now rewrite formatFilterArguments_between. }
  destruct (endsWith key "_nbt") eqn:E2.
  { intros [= <-]. apply endsWith_inv in E2 as [a ->].
    change (a ++ "_nbt") with (a ++ "_n" ++ "bt").
    rewrite (entry_negated a "bt" value between_operator).
    now rewrite formatFilterArguments_between. }
  destruct (endsWith key "_in") eqn:E3.
  { intros [= <-]. apply endsWith_inv in E3 as [a ->].
    change (a ++ "_in") with (a ++ "_" ++ "in").
    rewrite (entry_plain a "in" value in_operator).
    now rewrite formatFilterArguments_in. }
  destruct (endsWith key "_nin") eqn:E4; [|discriminate].
  intros [= <-]. apply endsWith_inv in E4 as [a ->].
  change (a ++ "_nin") with (a ++ "_n" ++ "in").
  rewrite (entry_negated a "in" value in_operator).
  now rewrite formatFilterArguments_in.
Qed.

(** Every other entry is compiled to a pair. *)
Lemma no_offence_emits (key : string) (value : JsValue) :
  offence (key, value) = None ->
  exists pair, formatFilterEntry (key, value) = inr pair.
Proof.
  intros Hoff.
  assert (Hargs : forall fld op,
             In op filterOperators ->
             key = fld ++ "_" ++ op \/ key = fld ++ "_n" ++ op ->
             exists arg, formatFilterArguments op value = inr arg).
  { intros fld op Hop Hkey. unfold offence in Hoff.
    destruct (isArray value) eqn:Harr.
    { destruct value; try discriminate. apply formatFilterArguments_array. }
    apply formatFilterArguments_other; [assumption | intros -> | intros ->];
      destruct Hkey as [-> | ->]; exfalso.
    - change (fld ++ "_" ++ "bt") with (fld ++ "_bt") in Hoff.
      rewrite endsWith_append in Hoff. discriminate.
    - change (fld ++ "_n" ++ "bt") with (fld ++ "_nbt") in Hoff.
      rewrite endsWith_append, orb_true_r in Hoff. discriminate.
    - change (fld ++ "_" ++ "in") with (fld ++ "_in") in Hoff.
      rewrite endsWith_append in Hoff.
      destruct (_ || _); discriminate.
    - change (fld ++ "_n" ++ "in") with (fld ++ "_nin") in Hoff.
      rewrite (endsWith_append fld "_nin"), orb_true_r in Hoff.
      destruct (_ || _); discriminate. }
  destruct (String.eqb_spec key searchOperator) as [-> | Hq].
  { eexists. apply entry_search. }
  apply String.eqb_neq in Hq.
  destruct (isValidFilterOperator (slice key (-2) None)) eqn:Hv.
  2: { unfold formatFilterEntry. rewrite Hq, Hv, !andb_false_r. eexists; reflexivity. }
  pose proof (proj1 (isValidFilterOperator_In _) Hv) as Hin.
  destruct (String.eqb_spec (slice key (-3) (Some (-2)%Z)) "_") as [H3 | H3].
  { destruct (plain_test_shape key H3 Hin) as (fld & op & Hkey & Hop).
    destruct (Hargs fld op Hop (or_introl Hkey)) as [arg Harg].
    subst key. rewrite (entry_plain fld op value Hop), Harg.
    eexists; reflexivity. }
  destruct (String.eqb_spec (slice key (-4) (Some (-2)%Z)) "_n") as [H4 | H4].
  { destruct (negated_test_shape key H4 Hin) as (fld & op & Hkey & Hop).
    destruct (Hargs fld op Hop (or_intror Hkey)) as [arg Harg].
    subst key. rewrite (entry_negated fld op value Hop), Harg.
    eexists; reflexivity. }
  apply String.eqb_neq in H3, H4.
  unfold formatFilterEntry. rewrite Hq, Hv, H3, H4. eexists; reflexivity.
Qed.

End TypeErrors.

Section TypeErrorsBeforeRequests.

Lemma firstOffence_throws (props : JsObject) (message : string) :
  firstOffence props = Some message ->
  formatFilter (JObj props) = inl (TypeError message).
Proof.
  unfold formatFilter. cbn [entries].
  induction props as [|[key value] rest IH]; cbn [firstOffence mapM]; [discriminate|].
  destruct (offence (key, value)) as [m|] eqn:Hoff.
  - intros [= ->]. now rewrite (offence_throws key value message Hoff).
  - intros Hrest. destruct (no_offence_emits key value Hoff) as [pair ->].
    cbn [bind]. now rewrite (IH Hrest).
Qed.

Lemma firstOffence_message (props : JsObject) (message : string) :
  firstOffence props = Some message ->
  message = betweenMessage \/ message = inMessage.
Proof.
  induction props as [|[key value] rest IH]; cbn [firstOffence]; [discriminate|].
  destruct (offence (key, value)) as [m|] eqn:Hoff; [|exact IH].
  intros [= ->]. unfold offence in Hoff.
  destruct (isArray value); [discriminate|].
  destruct (_ || _); [injection Hoff as <-; now left|].
  destruct (_ || _); [injection Hoff as <-; now right | discriminate].
Qed.

Lemma firstOffence_exists (props : JsObject) :
  Exists (fun entry => offence entry <> None) props ->
  exists message, firstOffence props = Some message.
Proof.
  induction 1 as [entry rest H | entry rest _ IH]; cbn [firstOffence].
  - destruct (offence entry) as [m|]; [now exists m | contradiction].
  - destruct (offence entry) as [m|]; [now exists m | exact IH].
Qed.

(** A filter that does not compile makes [formatParams] and [getURL] throw. *)
Lemma formatParams_throws (params : JsObject) (props : JsObject) (e : JsError) :
  lookup "filter" params = JObj props ->
  formatFilter (JObj props) = inl e ->
  formatParams params = inl e.
Proof. intros Hf He. unfold formatParams. rewrite Hf. simpl truthy. cbv iota. now rewrite He. Qed.

Lemma getURL_list_throws (apiUrl resource : string) (order_ page_ meta : JsValue)
  (props : JsObject) (e : JsError) :
  formatFilter (JObj props) = inl e ->
  getURL apiUrl resource
    [("order", order_); ("page", page_); ("filter", JObj props); ("meta", meta)] = inl e.
Proof.
  intros He. unfold getURL.
  change (lookup "id" _) with JUndefined. change (lookup "ids" _) with JUndefined.
  simpl truthy. cbv iota. unfold bind at 1.
  change (omit "ids" (omit "id" ?l)) with l.
  rewrite (formatParams_throws
             [("order", order_); ("page", page_); ("filter", JObj props); ("meta", meta)]
             props e eq_refl He).
  reflexivity.
Qed.

End TypeErrorsBeforeRequests.

(** C2, as amended.  For every filter mapping containing an entry whose key
    ends in [_bt], [_nbt], [_in] or [_nin] and whose value is not an array,
    [formatFilter] throws a TypeError, and its message is the one of the
    first such entry in enumeration order: the between message for [_bt] and
    [_nbt], the in message for [_in] and [_nin].  [getList] on that filter,
    and [getManyReference] when that mapping is its merged filter, throw the
    same error and issue no HTTP request. *)
Theorem type_error_before_request (props : JsObject) :
  Exists (fun entry => offence entry <> None) props ->
  exists message,
    firstOffence props = Some message
    /\ (message = betweenMessage \/ message = inMessage)
    /\ formatFilter (JObj props) = inl (TypeError message)
    /\ (forall self resource params log,
          gl_filter params = JObj props ->
          getList self resource params log = (log, inl (TypeError message)))
    /\ (forall self resource params log,
          set (gr_target params) (gr_id params) (spread [] (gr_filter params)) = props ->
          getManyReference self resource params log = (log, inl (TypeError message))).
Proof.
  intros Hex. destruct (firstOffence_exists props Hex) as [message Hfirst].
  exists message.
  pose proof (firstOffence_throws props message Hfirst) as Hthrow.
  repeat split; try assumption.
  - now apply firstOffence_message with props.
  - intros self resource params log Hfilter.
    unfold getList, hbind, lift. rewrite Hfilter.
    now rewrite (getURL_list_throws _ _ _ _ _ props _ Hthrow).
  - intros self resource params log Hfilter.
    unfold getManyReference, hbind, lift. rewrite Hfilter.
    now rewrite (getURL_list_throws _ _ _ _ _ props _ Hthrow).
Qed.

Lemma type_error_before_request_witness :
  exists message,
    firstOffence [("title_cs", JStr "Comm"); ("comment_nbt", JNum 4)] = Some message
    /\ (message = betweenMessage \/ message = inMessage)
    /\ formatFilter (JObj [("title_cs", JStr "Comm"); ("comment_nbt", JNum 4)])
       = inl (TypeError message)
    /\ (forall self resource params log,
          gl_filter params = JObj [("title_cs", JStr "Comm"); ("comment_nbt", JNum 4)] ->
          getList self resource params log = (log, inl (TypeError message)))
    /\ (forall self resource params log,
          set (gr_target params) (gr_id params) (spread [] (gr_filter params))
          = [("title_cs", JStr "Comm"); ("comment_nbt", JNum 4)] ->
          getManyReference self resource params log = (log, inl (TypeError message))).
Proof.
  apply (type_error_before_request [("title_cs", JStr "Comm"); ("comment_nbt", JNum 4)]).
  apply Exists_cons_tl, Exists_cons_hd. vm_compute. discriminate.
Defined.

(** C2 as worded fails: a mapping with a [_bt] key on a non-array value
    throws the in message when an [_in] entry comes first. *)
Lemma type_error_before_request_counterexample :
  let props := [("a_in", JNum 4); ("b_bt", JNum 4)] in
  In ("b_bt", JNum 4) props
  /\ endsWith "b_bt" "_bt" = true
  /\ isArray (JNum 4) = false
  /\ formatFilter (JObj props) = inl (TypeError inMessage)
  /\ inMessage <> betweenMessage.
Proof.
  cbv zeta. repeat split; try reflexivity.
  - right; left; reflexivity.
  - vm_compute. discriminate.
Qed.

(** The two type errors of the specification's examples. *)
Example comment_bt_4 :
  formatFilter (JObj [("comment_bt", JNum 4)]) = inl (TypeError betweenMessage).
Proof. reflexivity. Qed.

Example comment_in_4 :
  formatFilter (JObj [("comment_in", JNum 4)]) = inl (TypeError inMessage).
Proof. reflexivity. Qed.

(** ** Values and arguments (C3, C4) *)

(** A comparison operator keeps its value only when the value is truthy. *)
Lemma comparison_value_by_truthiness (fld op : string) (value : JsValue) :
  In op comparisonOperators -> fld <> "" ->
  formatFilterEntry (fld ++ "_" ++ op, value)
  = inr (APIFilterParam,
         JStr (if truthy value then fld ++ "," ++ op ++ "," ++ ToString value
               else fld ++ "," ++ op)).
Proof.
  intros Hop Hfld.
  assert (Hin : In op filterOperators).
  { unfold comparisonOperators in Hop. apply isValidFilterOperator_In.
    cbn [In] in Hop.
    repeat (destruct Hop as [<- | Hop]; [reflexivity|]). contradiction. }
  assert (Harg : formatFilterArguments op value = inr value).
  { unfold comparisonOperators in Hop. cbn [In] in Hop.
    repeat (destruct Hop as [<- | Hop]; [reflexivity|]). contradiction. }
  rewrite (entry_plain fld op value Hin), Harg. cbn [bind].
  destruct (truthy value) eqn:Ht.
  - now rewrite filterPair_full by auto using operator_nonempty.
  - unfold filterPair. cbn [filter].
    rewrite (truthy_JStr fld Hfld), (truthy_JStr op (operator_nonempty op Hin)), Ht.
    reflexivity.
Qed.

(** C3.  The value component of a comparison operator is dropped whenever
    the value is falsy: [comment_gt: 0], [comment_eq: false] and
    [comment_cs: ""] compile to "comment,gt", "comment,eq" and "comment,cs",
    where the claim has "comment,gt,0", "comment,eq,false" and "comment,cs,";
    the unsuffixed key on the same value keeps it. *)
Theorem falsy_value_is_dropped :
  formatFilter (JObj [("comment_gt", JNum 0)]) = inr [(APIFilterParam, JStr "comment,gt")]
  /\ formatFilter (JObj [("comment_eq", JBool false)])
     = inr [(APIFilterParam, JStr "comment,eq")]
  /\ formatFilter (JObj [("comment_cs", JStr "")]) = inr [(APIFilterParam, JStr "comment,cs")]
  /\ formatFilter (JObj [("comment_gt", JNum 4)]) = inr [(APIFilterParam, JStr "comment,gt,4")]
  /\ formatFilter (JObj [("comment", JNum 0)]) = inr [(APIFilterParam, JStr "comment,eq,0")].
Proof. repeat split; reflexivity. Qed.

(** C4.  [comment_bt: [4,8,16,32]] compiles to "comment,bt,4,8", the between
    argument reads the elements at index 0 and 1 only, and [comment_is]
    compiles to "comment,is" whatever its value. *)
Theorem between_and_null_arguments :
  formatFilter (JObj [("comment_bt", JArr [JNum 4; JNum 8; JNum 16; JNum 32])])
  = inr [(APIFilterParam, JStr "comment,bt,4,8")]
  /\ (forall a b rest,
        formatFilterArguments "bt" (JArr (a :: b :: rest))
        = formatFilterArguments "bt" (JArr [a; b]))
  /\ (forall v,
        formatFilter (JObj [("comment_is", v)]) = inr [(APIFilterParam, JStr "comment,is")]).
Proof. repeat split; reflexivity. Qed.

(** ** The search key (C5) *)

(** C5.  [{ q: "Hello", title: "World" }] compiles to the pairs
    (search, "Hello") and (filter, "title,eq,World") in that order, that is
    to the query "?search=Hello&filter=title,eq,World"; and in every filter
    mapping that compiles, an entry whose key is the search key is emitted,
    at its place, as the pair (search, value) with the value untouched. *)
Theorem search_key_routed_to_search :
  formatFilter (JObj [("q", JStr "Hello"); ("title", JStr "World")])
  = inr [(APISearchParam, JStr "Hello"); (APIFilterParam, JStr "title,eq,World")]
  /\ formatParams [("filter", JObj [("q", JStr "Hello"); ("title", JStr "World")])]
     = inr "?search=Hello&filter=title,eq,World"
  /\ (forall props out,
        formatFilter (JObj props) = inr out ->
        Forall2 (fun entry pair =>
                   fst entry = searchOperator -> pair = (APISearchParam, snd entry))
          props out).
Proof.
  repeat split; try reflexivity.
  intros props out H. unfold formatFilter in H. cbn [entries] in H.
  apply mapM_Forall2 in H. revert H. apply Forall2_impl.
  intros [key value] pair Hentry Hkey. simpl in Hkey. subst key.
  rewrite entry_search in Hentry. now injection Hentry as <-.
Qed.

Lemma search_key_routed_to_search_witness :
  Forall2 (fun entry pair =>
             fst entry = searchOperator -> pair = (APISearchParam, snd entry))
    [("title_cs", JStr "Comm"); ("q", JNum 0)]
    [(APIFilterParam, JStr "title,cs,Comm"); (APISearchParam, JNum 0)].
Proof.
  apply (proj2 (proj2 search_key_routed_to_search)
           [("title_cs", JStr "Comm"); ("q", JNum 0)]).
  reflexivity.
Defined.

(** ** Encoding and decoding the query string (C7) *)

Section QueryString.

(** Decoding undoes the encoding of a byte, but for the space. *)
Lemma decode_encode_byte (c : ascii) (rest : string) :
  decodeURIComponent (encode_byte c ++ rest) =
    (r <- decodeURIComponent rest ;;
     inr (String (if Ascii.eqb c " " then "+"%char else c) r)).
Proof.
  destruct c as [b0 b1 b2 b3 b4 b5 b6 b7].
  destruct b0, b1, b2, b3, b4, b5, b6, b7; reflexivity.
Qed.

Lemma decode_urlencode (s rest : string) :
  decodeURIComponent (urlencode s ++ rest) =
    (r <- decodeURIComponent rest ;; inr (spaceAsPlus s ++ r)).
Proof.
  induction s as [|c s IH]; cbn [urlencode spaceAsPlus append].
  - destruct (decodeURIComponent rest); reflexivity.
  - rewrite append_assoc, decode_encode_byte, IH.
    destruct (decodeURIComponent rest); reflexivity.
Qed.

Lemma decode_pair (k v rest : string) :
  decodeURIComponent (urlencode k ++ "=" ++ urlencode v ++ rest) =
    (r <- decodeURIComponent rest ;;
     inr (spaceAsPlus k ++ "=" ++ spaceAsPlus v ++ r)).
Proof.
  rewrite decode_urlencode.
  change (decodeURIComponent ("=" ++ urlencode v ++ rest))
    with (r <- decodeURIComponent (urlencode v ++ rest) ;; inr (String "=" r)).
  rewrite decode_urlencode.
  destruct (decodeURIComponent rest); reflexivity.
Qed.

(** One decoding pass over the serialized pairs always succeeds and gives
    the pairs literally. *)
Lemma decode_serialize (pairs : list (string * string)) :
  decodeURIComponent (serialize pairs) = inr (literalQuery pairs).
Proof.
  unfold serialize, literalQuery.
  induction pairs as [|[k v] pairs IH]; [reflexivity|].
  destruct pairs as [|kv pairs]; cbn [map concat_sep fst snd] in *.
  - rewrite <- (append_nil_r (urlencode v)), decode_pair.
    cbn [decodeURIComponent bind]. now rewrite !append_nil_r.
  - rewrite append_assoc, append_assoc, decode_pair.
    change (decodeURIComponent ("&" ++ ?x))
      with (r <- decodeURIComponent x ;; inr (String "&" r)).
    rewrite IH. cbn [bind]. now rewrite !append_assoc.
Qed.

Lemma serialize_nonempty (kv : string * string) (pairs : list (string * string)) :
  (serialize (kv :: pairs) =? "") = false.
Proof.
  apply String.eqb_neq. intros H. apply (f_equal String.length) in H.
  unfold serialize in H.
  destruct pairs; cbn [map concat_sep] in H; rewrite !length_append in H;
    simpl in H; lia.
Qed.

Lemma appendAll_nil (urlParams : list (string * string)) : appendAll urlParams [] = urlParams.
Proof. unfold appendAll. cbn [map]. apply app_nil_r. Qed.

(** [formatParams] in one equation. *)
Lemma formatParams_queryPairs (params : JsObject) :
  formatParams params =
    (pairs <- queryPairs params ;;
     inr (match pairs with [] => "" | _ => "?" ++ literalQuery pairs end)).
Proof.
  unfold formatParams, queryPairs.
  destruct (truthy (lookup "filter" params)).
  - destruct (formatFilter (lookup "filter" params)) as [e|fp]; cbn [bind]; [reflexivity|].
    match goal with |- context [serialize ?l] => destruct l as [|kv l'] eqn:E end.
    + reflexivity.
    + rewrite serialize_nonempty, decode_serialize. reflexivity.
  - cbn [bind]. rewrite appendAll_nil.
    match goal with |- context [serialize ?l] => destruct l as [|kv l'] eqn:E end.
    + reflexivity.
    + rewrite serialize_nonempty, decode_serialize. reflexivity.
Qed.

End QueryString.

Section ListUrl.

(** The URL of a list request whose filter compiles. *)
Lemma getURL_list (apiUrl resource order_ page_ : string) (props : JsObject)
  (meta : JsValue) (fpairs : list (string * JsValue)) :
  formatFilter (JObj props) = inr fpairs ->
  getURL apiUrl resource
    [("order", JStr order_); ("page", JStr page_); ("filter", JObj props); ("meta", meta)]
  = inr (apiUrl ++ "/records/" ++ resource ++ "?"
         ++ literalQuery (("order", order_) :: ("page", page_)
                          :: appendAll (appendAll [] fpairs) (metaPairs meta))).
Proof.
  intros Hf. unfold getURL.
  change (lookup "id" _) with JUndefined. change (lookup "ids" _) with JUndefined.
  cbn [truthy bind]. change (omit "ids" (omit "id" ?l)) with l.
  rewrite formatParams_queryPairs. unfold queryPairs.
  change (lookup "filter" _) with (JObj props). change (lookup "meta" _) with meta.
  cbn [truthy]. rewrite Hf. cbn [bind].
  change (omit "meta" (omit "filter" _)) with [("order", JStr order_); ("page", JStr page_)].
  reflexivity.
Qed.

End ListUrl.



(** The provider of the test suite, built on a base URL with a trailing
    slash, builds the URL of the test. *)
Example test_getURL (client : string -> JsValue -> Res JsValue) :
  getURL (apiUrl (new_TreeQLDataProvider "http://myApi.com/" client)) "comment"
    [("order", JStr "length,DESC"); ("page", JStr "1,25"); ("filter", JObj [("id", JNum 4)])]
  = inr "http://myApi.com/records/comment?order=length,DESC&page=1,25&filter=id,eq,4".
Proof. reflexivity. Qed.

(** ** The operations on one record (C8, C9, C10) *)

Section Records.

Variable JSON_stringify : JsValue -> JsValue.
Variable self : TreeQLDataProvider.

Lemma getURL_record (resource : string) (id meta : JsValue) :
  getURL (apiUrl self) resource [("id", id); ("meta", meta)]
  = inr (recordURL (apiUrl self) resource id meta).
Proof.
  unfold getURL, recordURL.
  change (lookup "id" _) with id. change (lookup "ids" _) with JUndefined.
  change (omit "ids" (omit "id" _)) with [("meta", meta)].
  rewrite formatParams_queryPairs. unfold queryPairs.
  change (lookup "filter" _) with JUndefined. change (lookup "meta" _) with meta.
  change (omit "meta" (omit "filter" _)) with (@nil (string * JsValue)).
  cbn [truthy bind]. rewrite appendAll_nil.
  destruct (truthy id); cbn [bind]; reflexivity.
Qed.

Lemma getOne_run (resource : string) (params : GetOneParams) (log : list Request) :
  let url := recordURL (apiUrl self) resource (go_id params) (go_meta params) in
  getOne self resource params log
  = ((log ++ [(url, JUndefined)])%list,
     response <- httpClient self url JUndefined ;;
     json <- getProp response "json" ;;
     inr (JObj [("data", json)])).
Proof.
  cbv zeta. unfold getOne, hbind, lift, fetch, hret. rewrite getURL_record.
  destruct (httpClient self _ _) as [e|response]; [reflexivity|]. cbn [bind].
  destruct (getProp response "json"); reflexivity.
Qed.

Lemma update_run (resource : string) (params : UpdateParams) (log : list Request) :
  let url := recordURL (apiUrl self) resource (up_id params) (up_meta params) in
  let options := JObj [("method", JStr "PUT"); ("body", JSON_stringify (up_data params))] in
  update JSON_stringify self resource params log
  = ((log ++ [(url, options)])%list,
     _ <- httpClient self url options ;;
     inr (JObj [("data",
                 JObj (spread (spread [("id", up_id params)] (up_previousData params))
                         (up_data params)))])).
Proof.
  cbv zeta. unfold update, hbind, lift, fetch, hret. rewrite getURL_record.
  destruct (httpClient self _ _); reflexivity.
Qed.

Lemma delete_run (resource : string) (params : DeleteParams) (log : list Request) :
  let url := recordURL (apiUrl self) resource (de_id params) (de_meta params) in
  let options := JObj [("method", JStr "DELETE")] in
  delete self resource params log
  = ((log ++ [(url, options)])%list,
     _ <- httpClient self url options ;;
     inr (JObj [("data", JObj (spread [("id", de_id params)] (de_previousData params)))])).
Proof.
  cbv zeta. unfold delete, hbind, lift, fetch, hret. rewrite getURL_record.
  destruct (httpClient self _ _); reflexivity.
Qed.

End Records.

Lemma getURL_collection (apiUrl resource : string) (meta : JsValue) :
  getURL apiUrl resource [("meta", meta)]
  = inr (apiUrl ++ "/records/" ++ resource ++ metaQuery meta).
Proof.
  unfold getURL.
  change (lookup "id" _) with JUndefined. change (lookup "ids" _) with JUndefined.
  change (omit "ids" (omit "id" _)) with [("meta", meta)].
  rewrite formatParams_queryPairs. unfold queryPairs.
  change (lookup "filter" _) with JUndefined. change (lookup "meta" _) with meta.
  change (omit "meta" (omit "filter" _)) with (@nil (string * JsValue)).
  cbn [truthy bind]. rewrite appendAll_nil. reflexivity.
Qed.




(** The test of the suite: no previous data, or an empty one. *)
Example test_at_least_id :
  let self := new_TreeQLDataProvider "http://myApi.com/"
                (fun _ _ => inr (JObj [("status", JNum 200); ("json", JNull)])) in
  snd (update (fun v => v) self "comment"
         {| up_id := JNum 1; up_data := JObj [("title", JStr "New Title")];
            up_previousData := JObj []; up_meta := JUndefined |} [])
  = inr (JObj [("data", JObj [("id", JNum 1); ("title", JStr "New Title")])])
  /\ snd (delete self "comment"
            {| de_id := JNum 1; de_previousData := JUndefined; de_meta := JUndefined |} [])
     = inr (JObj [("data", JObj [("id", JNum 1)])]).
Proof. split; reflexivity. Qed.

(** C10.  For getOne, update and delete the one request goes to
    <base>/records/<resource>, then "/<id>" if and only if the identifier is
    truthy, then the query string of the metadata; 0 and the empty string
    are falsy, and with either the URL is the one [getURL] builds when no
    identifier is given at all. *)
Theorem falsy_id_targets_collection (JSON_stringify : JsValue -> JsValue)
  (self : TreeQLDataProvider) (resource : string) (id data previousData meta : JsValue)
  (log : list Request) :
  let url := apiUrl self ++ "/records/" ++ resource
             ++ (if truthy id then "/" ++ ToString id else "") ++ metaQuery meta in
  getURL (apiUrl self) resource [("id", id); ("meta", meta)] = inr url
  /\ fst (getOne self resource {| go_id := id; go_meta := meta |} log)
     = (log ++ [(url, JUndefined)])%list
  /\ fst (update JSON_stringify self resource
            {| up_id := id; up_data := data; up_previousData := previousData;
               up_meta := meta |} log)
     = (log ++ [(url, JObj [("method", JStr "PUT"); ("body", JSON_stringify data)])])%list
  /\ fst (delete self resource
            {| de_id := id; de_previousData := previousData; de_meta := meta |} log)
     = (log ++ [(url, JObj [("method", JStr "DELETE")])])%list
  /\ truthy (JNum 0) = false
  /\ truthy (JStr "") = false
  /\ getURL (apiUrl self) resource [("id", JNum 0); ("meta", meta)]
     = getURL (apiUrl self) resource [("meta", meta)]
  /\ getURL (apiUrl self) resource [("id", JStr ""); ("meta", meta)]
     = getURL (apiUrl self) resource [("meta", meta)]
  /\ getURL (apiUrl self) resource [("meta", meta)]
     = inr (apiUrl self ++ "/records/" ++ resource ++ metaQuery meta).
Proof.
  cbv zeta.
  rewrite getOne_run, update_run, delete_run, !getURL_record, getURL_collection.
  repeat split; reflexivity.
Qed.

(** ** The list envelope (C6) *)

Lemma lookup_absent (key : string) (o : JsObject) :
  hasKey key o = false -> lookup key o = JUndefined.
Proof.
  unfold hasKey. induction o as [|[k v] o IH]; cbn [existsb lookup fst]; [reflexivity|].
  destruct (k =? key); [discriminate | exact IH].
Qed.

(** C6, as amended.  For every getList call whose filter compiles and whose
    response body is an object, the result envelope is
    { data: <the body's records>, total: <the body's results> }; the total
    is passed through as it is, so it is undefined, not 0, when the body
    carries no results count. *)
Theorem getList_envelope (self : TreeQLDataProvider) (resource : string)
  (params : GetListParams) (log : list Request) (url : string)
  (response : JsValue) (body : JsObject) :
  getURL (apiUrl self) resource
    [ ("order", orderParam (gl_sort params)); ("page", pageParam (gl_pagination params))
    ; ("filter", gl_filter params); ("meta", gl_meta params) ] = inr url ->
  httpClient self url JUndefined = inr response ->
  getProp response "json" = inr (JObj body) ->
  getList self resource params log
  = ((log ++ [(url, JUndefined)])%list,
     inr (JObj [("data", lookup "records" body); ("total", lookup "results" body)]))
  /\ (hasKey "results" body = false -> lookup "results" body = JUndefined).
Proof.
  intros Hurl Hresp Hjson. split; [|apply lookup_absent].
  unfold getList, hbind, lift, fetch, hret. rewrite Hurl, Hresp, Hjson. reflexivity.
Qed.

Lemma getList_envelope_witness :
  let self := new_TreeQLDataProvider "http://myApi.com/"
                (fun _ _ => inr (JObj [("json",
                   JObj [("records", JArr [JObj [("id", JNum 1)]]); ("results", JNum 1)])])) in
  let params := {| gl_pagination := {| page := 1; perPage := 10 |};
                   gl_sort := {| field := "title"; order := "ASC" |};
                   gl_filter := JObj [("title_cs", JStr "Comm")];
                   gl_meta := JUndefined |} in
  getList self "comment" params []
  = ([("http://myApi.com/records/comment?order=title,ASC&page=1,10&filter=title,cs,Comm",
       JUndefined)],
     inr (JObj [("data", JArr [JObj [("id", JNum 1)]]); ("total", JNum 1)])).
Proof.
  cbv zeta.
  exact (proj1 (getList_envelope
                  (new_TreeQLDataProvider "http://myApi.com/"
                     (fun _ _ => inr (JObj [("json",
                        JObj [("records", JArr [JObj [("id", JNum 1)]]);
                              ("results", JNum 1)])])))
                  "comment"
                  {| gl_pagination := {| page := 1; perPage := 10 |};
                     gl_sort := {| field := "title"; order := "ASC" |};
                     gl_filter := JObj [("title_cs", JStr "Comm")];
                     gl_meta := JUndefined |}
                  []
                  "http://myApi.com/records/comment?order=title,ASC&page=1,10&filter=title,cs,Comm"
                  (JObj [("json", JObj [("records", JArr [JObj [("id", JNum 1)]]);
                                        ("results", JNum 1)])])
                  [("records", JArr [JObj [("id", JNum 1)]]); ("results", JNum 1)]
                  eq_refl eq_refl eq_refl)).
Defined.

(** C6 as worded fails: a body without a results count gives the total
    [undefined], not 0. *)
Lemma getList_envelope_counterexample :
  let self := new_TreeQLDataProvider "http://myApi.com/"
                (fun _ _ => inr (JObj [("json", JObj [("records", JArr [])])])) in
  let params := {| gl_pagination := {| page := 1; perPage := 10 |};
                   gl_sort := {| field := "title"; order := "ASC" |};
                   gl_filter := JObj []; gl_meta := JUndefined |} in
  snd (getList self "comment" params [])
  = inr (JObj [("data", JArr []); ("total", JUndefined)])
  /\ JUndefined <> JNum 0.
Proof. cbv zeta. split; [reflexivity | discriminate]. Qed.

(** * Further properties of the provider *)

(** ** The constructor *)

(** The constructor removes exactly one trailing slash, and nothing else:
    the base URL it keeps, followed by the slash it removed, is its
    argument. *)
Theorem constructor_strips_one_slash (base : string)
  (client : string -> JsValue -> Res JsValue) :
  apiUrl (new_TreeQLDataProvider (base ++ "/") client) = base
  /\ apiUrl (new_TreeQLDataProvider base client)
     ++ (if endsWith base "/" then "/" else "") = base.
Proof.
  assert (Hslash : forall a, apiUrl (new_TreeQLDataProvider (a ++ "/") client) = a).
  { intros a. cbn [new_TreeQLDataProvider apiUrl]. rewrite endsWith_append.
    exact (slice_head a "/" (-1) eq_refl (Nat.lt_0_succ _)). }
  split; [apply Hslash|].
  destruct (endsWith base "/") eqn:E.
  - apply endsWith_inv in E as [a ->]. now rewrite Hslash.
  - cbn [new_TreeQLDataProvider apiUrl]. rewrite E. apply append_nil_r.
Qed.

(** ** When the filter compiler throws *)

Lemma formatFilter_length (props : JsObject) (out : list (string * JsValue)) :
  formatFilter (JObj props) = inr out -> List.length out = List.length props.
Proof.
  intros H. unfold formatFilter in H. cbn [entries] in H.
  apply mapM_Forall2 in H. symmetry. revert H. apply Forall2_length.
Qed.

Lemma no_offence_compiles (props : JsObject) :
  firstOffence props = None -> exists out, formatFilter (JObj props) = inr out.
Proof.
  unfold formatFilter. cbn [entries].
  induction props as [|[key value] rest IH]; cbn [firstOffence mapM].
  - intros _. now exists [].
  - destruct (offence (key, value)) eqn:Hoff; [discriminate|]. intros Hrest.
    destruct (no_offence_emits key value Hoff) as [pair ->].
    destruct (IH Hrest) as [out ->]. now exists (pair :: out).
Qed.

(** The compiler throws in no other case: a filter compiles if and only if
    none of its entries puts a between or in operator on a value that is not
    an array, and then it gives exactly one pair per entry. *)
Theorem formatFilter_compiles_iff (props : JsObject) :
  ((exists out, formatFilter (JObj props) = inr out) <-> firstOffence props = None)
  /\ (forall out, formatFilter (JObj props) = inr out ->
        List.length out = List.length props).
Proof.
  split; [split|].
  - intros [out Hout]. destruct (firstOffence props) as [message|] eqn:Hfirst; [|reflexivity].
    rewrite (firstOffence_throws props message Hfirst) in Hout. discriminate.
  - apply no_offence_compiles.
  - apply formatFilter_length.
Qed.

Lemma formatFilter_compiles_iff_witness :
  List.length [ (APIFilterParam, JStr "id,in,1,2"); (APISearchParam, JStr "x")
              ; (APIFilterParam, JStr "a_bt,nis") ]
  = List.length [ ("id_in", JArr [JNum 1; JNum 2]); ("q", JStr "x"); ("a_bt_nis", JNum 4) ].
Proof.
  apply (proj2 (formatFilter_compiles_iff
                  [("id_in", JArr [JNum 1; JNum 2]); ("q", JStr "x"); ("a_bt_nis", JNum 4)])).
  reflexivity.
Defined.

(** ** Arguments of between and in on arrays *)

Lemma comma_joined_nonempty (a b : string) : a ++ "," ++ b <> "".
Proof.
  intros H. apply (f_equal String.length) in H.
  rewrite length_append in H. simpl in H. lia.
Qed.

(** On an array, between never throws and never loses its value component:
    it prints the elements at index 0 and 1, [undefined] for one that is
    missing, so an array of fewer than two elements still compiles. *)
Theorem between_on_any_array (fld : string) (elems : list JsValue) :
  fld <> "" ->
  formatFilterEntry (fld ++ "_bt", JArr elems)
  = inr (APIFilterParam,
         JStr (fld ++ ",bt," ++ ToString (nth 0 elems JUndefined) ++ ","
               ++ ToString (nth 1 elems JUndefined)))
  /\ formatFilterEntry (fld ++ "_bt", JArr [])
     = inr (APIFilterParam, JStr (fld ++ ",bt,undefined,undefined"))
  /\ (forall a, formatFilterEntry (fld ++ "_bt", JArr [a])
                = inr (APIFilterParam, JStr (fld ++ ",bt," ++ ToString a ++ ",undefined"))).
Proof.
  intros Hfld.
  assert (H : forall l, formatFilterEntry (fld ++ "_bt", JArr l)
                        = inr (APIFilterParam,
                               JStr (fld ++ ",bt," ++ ToString (nth 0 l JUndefined) ++ ","
                                     ++ ToString (nth 1 l JUndefined)))).
  { intros l. change (fld ++ "_bt") with (fld ++ "_" ++ "bt").
    rewrite (entry_plain fld "bt" (JArr l) between_operator).
    change (formatFilterArguments "bt" (JArr l))
      with (@inr JsError JsValue
              (JStr (ToString (nth 0 l JUndefined) ++ "," ++ ToString (nth 1 l JUndefined)))).
    cbn [bind]. rewrite filterPair_full; [reflexivity | assumption | discriminate |].
    apply truthy_JStr, comma_joined_nonempty. }
  split; [apply H|]. split; [apply (H [])|]. intros a. apply (H [a]).
Qed.

Lemma between_on_any_array_witness :
  formatFilterEntry ("comment_bt", JArr [JNull])
  = inr (APIFilterParam, JStr "comment,bt,null,undefined").
Proof.
  apply (proj2 (proj2 (between_on_any_array "comment" [] ltac:(discriminate))) JNull).
Defined.

(** On an array, in prints all the elements joined with commas; when the
    join is empty (no element, or only empty ones) the value component is
    dropped altogether. *)
Theorem in_on_any_array (fld : string) (elems : list JsValue) :
  fld <> "" ->
  formatFilterEntry (fld ++ "_in", JArr elems)
  = inr (APIFilterParam,
         JStr (if Array_join "," elems =? "" then fld ++ ",in"
               else fld ++ ",in," ++ Array_join "," elems))
  /\ formatFilterEntry (fld ++ "_in", JArr []) = inr (APIFilterParam, JStr (fld ++ ",in")).
Proof.
  intros Hfld.
  assert (H : forall l, formatFilterEntry (fld ++ "_in", JArr l)
                        = inr (APIFilterParam,
                               JStr (if Array_join "," l =? "" then fld ++ ",in"
                                     else fld ++ ",in," ++ Array_join "," l))).
  { intros l. change (fld ++ "_in") with (fld ++ "_" ++ "in").
    rewrite (entry_plain fld "in" (JArr l) in_operator).
    change (formatFilterArguments "in" (JArr l))
      with (@inr JsError JsValue (JStr (Array_join "," l))).
    cbn [bind]. unfold filterPair. cbn [filter]. rewrite (truthy_JStr fld Hfld).
    cbn [truthy]. destruct (Array_join "," l =? ""); reflexivity. }
  split; [apply H | apply (H [])].
Qed.

Lemma in_on_any_array_witness :
  formatFilterEntry ("id_in", JArr [JNum 1; JNull; JStr "x"])
  = inr (APIFilterParam, JStr "id,in,1,,x").
Proof.
  apply (proj1 (in_on_any_array "id" [JNum 1; JNull; JStr "x"] ltac:(discriminate))).
Defined.

(** ** Reading the suffix of a key *)

Lemma plainKey_slices (key fld op : string) :
  plainKey key fld op ->
  slice key (-2) None = op /\ slice key (-3) (Some (-2)%Z) = "_"
  /\ slice key 0 (Some (-3)%Z) = fld.
Proof.
  intros [Hop ->]. destruct (operator_two_chars op Hop) as (c1 & c2 & ->).
  apply slices_plain.
Qed.

Lemma negatedKey_slices (key fld op : string) :
  negatedKey key fld op ->
  slice key (-2) None = op /\ slice key (-3) (Some (-2)%Z) = "n"
  /\ slice key 0 (Some (-4)%Z) = fld.
Proof.
  intros [Hop ->]. destruct (operator_two_chars op Hop) as (c1 & c2 & ->).
  destruct (slices_negated fld c1 c2) as (H2 & H3 & _ & H0). now repeat split.
Qed.

(** A key is read in one way at most: its field and operator are
    determined by the key, no key is both a plain and a negated one, and
    the search key is neither. *)
Theorem suffix_parse_unambiguous (key fld op fld' op' : string) :
  (plainKey key fld op -> plainKey key fld' op' -> fld = fld' /\ op = op')
  /\ (negatedKey key fld op -> negatedKey key fld' op' -> fld = fld' /\ op = op')
  /\ (plainKey key fld op -> ~ negatedKey key fld' op')
  /\ (plainKey key fld op \/ negatedKey key fld op -> key <> searchOperator).
Proof.
  repeat split.
  - apply plainKey_slices in H as (_ & _ & <-).
    apply plainKey_slices in H0 as (_ & _ & <-). reflexivity.
  - apply plainKey_slices in H as (<- & _). apply plainKey_slices in H0 as (<- & _).
    reflexivity.
  - apply negatedKey_slices in H as (_ & _ & <-).
    apply negatedKey_slices in H0 as (_ & _ & <-). reflexivity.
  - apply negatedKey_slices in H as (<- & _). apply negatedKey_slices in H0 as (<- & _).
    reflexivity.
  - intros Hplain Hneg. apply plainKey_slices in Hplain as (_ & H3 & _).
    apply negatedKey_slices in Hneg as (_ & H3' & _). rewrite H3 in H3'. discriminate.
  - intros [[Hop ->] | [Hop ->]] Hq;
      destruct (operator_two_chars op Hop) as (c1 & c2 & ->);
      apply (f_equal String.length) in Hq;
      rewrite length_append in Hq; simpl in Hq; lia.
Qed.

Lemma suffix_parse_unambiguous_witness :
  ("a_n" = "a_n" /\ "eq" = "eq") /\ ~ negatedKey "a_n_eq" "a" "eq"
  /\ "a_n_eq" <> searchOperator.
Proof.
  assert (Hplain : plainKey "a_n_eq" "a_n" "eq").
  { split; [apply isValidFilterOperator_In|]; reflexivity. }
  pose proof (suffix_parse_unambiguous "a_n_eq" "a_n" "eq" "a_n" "eq") as (H1 & _ & _ & H4).
  pose proof (suffix_parse_unambiguous "a_n_eq" "a_n" "eq" "a" "eq") as (_ & _ & H3 & _).
  split; [exact (H1 Hplain Hplain)|]. split; [exact (H3 Hplain) | exact (H4 (or_introl Hplain))].
Defined.

(** A key of fewer than three characters is never read as a field and an
    operator: other than the search key it is an equality filter on the
    whole key, even when it is itself an operator code. *)
Theorem short_key_is_equality (key : string) (value : JsValue) :
  (String.length key < 3)%nat -> key <> searchOperator ->
  formatFilterEntry (key, value)
  = inr (APIFilterParam, JStr (key ++ ",eq," ++ ToString value)).
Proof.
  intros Hlen Hq. apply entry_default; [assumption| |];
    intros fld op Hop ->; destruct (operator_two_chars op Hop) as (c1 & c2 & ->);
    rewrite length_append in Hlen; simpl in Hlen; lia.
Qed.

Lemma short_key_is_equality_witness :
  formatFilterEntry ("in", JNum 4) = inr (APIFilterParam, JStr "in,eq,4").
Proof.
  apply (short_key_is_equality "in" (JNum 4)); [simpl; lia | discriminate].
Defined.

(** ** Composing filters *)

Lemma mapM_app {A B : Type} (f : A -> Res B) (a b : list A) :
  mapM f (a ++ b)%list
  = (x <- mapM f a ;; y <- mapM f b ;; inr (x ++ y)%list).
Proof.
  induction a as [|e a IH]; cbn [mapM app bind].
  - destruct (mapM f b); reflexivity.
  - destruct (f e) as [err|y]; cbn [bind]; [reflexivity|].
    rewrite IH. destruct (mapM f a) as [err|ys]; cbn [bind]; [reflexivity|].
    destruct (mapM f b); reflexivity.
Qed.

(** Compiling is entry-wise: the pairs of two mappings put one after the
    other are the pairs of the first followed by the pairs of the second,
    and the first mapping that throws decides the error. *)
Theorem formatFilter_concat (a b : JsObject) :
  formatFilter (JObj (a ++ b)%list)
  = (x <- formatFilter (JObj a) ;; y <- formatFilter (JObj b) ;; inr (x ++ y)%list).
Proof. unfold formatFilter. cbn [entries]. apply mapM_app. Qed.

(** ** Objects: assignment and spread *)

Section Objects.

Lemma lookup_set_same (key : string) (v : JsValue) (o : JsObject) :
  lookup key (set key v o) = v.
Proof.
  induction o as [|[k w] o IH]; cbn [set lookup].
  - now rewrite String.eqb_refl.
  - destruct (k =? key) eqn:E; cbn [lookup]; rewrite E; [reflexivity | exact IH].
Qed.

Lemma lookup_set_other (key key' : string) (v : JsValue) (o : JsObject) :
  key' <> key -> lookup key' (set key v o) = lookup key' o.
Proof.
  intros Hne. induction o as [|[k w] o IH]; cbn [set lookup].
  - apply String.eqb_neq in Hne. rewrite String.eqb_sym in Hne. now rewrite Hne.
  - destruct (k =? key) eqn:E; cbn [lookup].
    + apply String.eqb_eq in E. subst k.
      apply not_eq_sym, String.eqb_neq in Hne. now rewrite Hne.
    + destruct (k =? key'); [reflexivity | exact IH].
Qed.

Lemma set_fresh (key : string) (v : JsValue) (o : JsObject) :
  hasKey key o = false -> set key v o = (o ++ [(key, v)])%list.
Proof.
  unfold hasKey. induction o as [|[k w] o IH]; cbn [set existsb app fst]; [reflexivity|].
  destruct (k =? key); [discriminate|]. cbn [orb]. intros H. now rewrite IH.
Qed.

Lemma hasKey_app (key : string) (a b : JsObject) :
  hasKey key (a ++ b)%list = hasKey key a || hasKey key b.
Proof. unfold hasKey. apply existsb_app. Qed.

Lemma hasKey_In (key : string) (o : JsObject) :
  hasKey key o = false <-> ~ In key (map fst o).
Proof.
  unfold hasKey. induction o as [|[k w] o IH]; cbn [existsb map In fst].
  - split; [intros _ [] | reflexivity].
  - rewrite orb_false_iff, IH, String.eqb_neq. tauto.
Qed.

(** Spreading an object with distinct keys over properties that have none
    of them appends it. *)
Lemma spread_fresh (props acc : JsObject) :
  NoDup (map fst props) ->
  (forall k, In k (map fst props) -> hasKey k acc = false) ->
  spread acc (JObj props) = (acc ++ props)%list.
Proof.
  unfold spread. cbn [entries]. revert acc.
  induction props as [|[k w] props IH]; intros acc Hnd Hfresh; cbn [fold_left fst snd].
  - now rewrite app_nil_r.
  - cbn [map fst] in Hnd. inversion Hnd as [|? ? Hnotin Hnd']; subst.
    rewrite set_fresh by (apply Hfresh; now left).
    rewrite IH; [now rewrite <- app_assoc | assumption |].
    intros k' Hk'. rewrite hasKey_app, Hfresh by (now right). cbn [orb].
    unfold hasKey. cbn [existsb fst]. rewrite orb_false_r.
    apply String.eqb_neq. intros ->. contradiction.
Qed.

Lemma spread_empty (props : JsObject) :
  NoDup (map fst props) -> spread [] (JObj props) = props.
Proof. intros Hnd. now rewrite spread_fresh. Qed.

End Objects.

(** ** The reference of getManyReference *)

(** The request of getManyReference when the target is not a key of the
    caller's filter and is not integer-like: one GET whose query is order,
    page, the pairs of the caller's filter, then the pair compiled from
    (target, id), then the metadata; the envelope is read off the answer as
    for a list. *)
Theorem getManyReference_appends_reference (self : TreeQLDataProvider)
  (resource : string) (params : GetManyReferenceParams) (log : list Request)
  (props : JsObject) (out : list (string * JsValue)) (pair : string * JsValue) :
  gr_filter params = JObj props ->
  NoDup (map fst props) ->
  hasKey (gr_target params) props = false ->
  integerLikeKey (gr_target params) = false ->
  formatFilter (JObj props) = inr out ->
  formatFilterEntry (gr_target params, gr_id params) = inr pair ->
  let url := apiUrl self ++ "/records/" ++ resource ++ "?"
             ++ literalQuery
                  (("order", field (gr_sort params) ++ "," ++ order (gr_sort params))
                   :: ("page", Z_to_string (page (gr_pagination params)) ++ ","
                               ++ Z_to_string (perPage (gr_pagination params)))
                   :: appendAll (appendAll [] (out ++ [pair])%list)
                        (metaPairs (gr_meta params))) in
  getManyReference self resource params log
  = ((log ++ [(url, JUndefined)])%list,
     response <- httpClient self url JUndefined ;;
     json <- getProp response "json" ;;
     records <- getProp json "records" ;;
     results <- getProp json "results" ;;
     inr (JObj [("data", records); ("total", results)])).
Proof.
  intros Hfilter Hnd Hfresh _ Hout Hpair. cbv zeta.
  unfold getManyReference, hbind, lift, fetch, hret, orderParam, pageParam.
  rewrite Hfilter, (spread_empty props Hnd), (set_fresh _ _ _ Hfresh).
  rewrite (getURL_list _ _ _ _ _ _ (out ++ [pair])%list).
  2: { unfold formatFilter in *. cbn [entries] in *.
       rewrite mapM_app, Hout. cbn [bind mapM]. rewrite Hpair. reflexivity. }
  destruct (httpClient self _ _) as [e|response]; [reflexivity|]. cbn [bind].
  destruct (getProp response "json") as [e|json]; [reflexivity|]. cbn [bind].
  destruct (getProp json "records") as [e|records]; [reflexivity|]. cbn [bind].
  destruct (getProp json "results"); reflexivity.
Qed.

Lemma getManyReference_appends_reference_witness :
  let self := new_TreeQLDataProvider "http://myApi.com/"
                (fun _ _ => inr (JObj [("json",
                   JObj [("records", JArr [JObj [("id", JNum 1)]; JObj [("id", JNum 2)]]);
                         ("results", JNum 2)])])) in
  let params := {| gr_target := "post"; gr_id := JStr "1";
                   gr_pagination := {| page := 1; perPage := 10 |};
                   gr_sort := {| field := "title"; order := "ASC" |};
                   gr_filter := JObj [("title_cs", JStr "Comm")];
                   gr_meta := JUndefined |} in
  getManyReference self "comment" params []
  = ([("http://myApi.com/records/comment?order=title,ASC&page=1,10&filter=title,cs,Comm&filter=post,eq,1",
       JUndefined)],
     inr (JObj [("data", JArr [JObj [("id", JNum 1)]; JObj [("id", JNum 2)]]);
                ("total", JNum 2)])).
Proof.
  cbv zeta.
  refine (getManyReference_appends_reference _ "comment"
            {| gr_target := "post"; gr_id := JStr "1";
               gr_pagination := {| page := 1; perPage := 10 |};
               gr_sort := {| field := "title"; order := "ASC" |};
               gr_filter := JObj [("title_cs", JStr "Comm")];
               gr_meta := JUndefined |} []
            [("title_cs", JStr "Comm")] [(APIFilterParam, JStr "title,cs,Comm")]
            (APIFilterParam, JStr "post,eq,1") eq_refl _ eq_refl eq_refl eq_refl
            eq_refl).
  repeat constructor. simpl. tauto.
Defined.

Lemma set_in_place (pre post : JsObject) (key : string) (old v : JsValue) :
  ~ In key (map fst pre) ->
  set key v (pre ++ (key, old) :: post)%list = (pre ++ (key, v) :: post)%list.
Proof.
  induction pre as [|[k w] pre IH]; cbn [map fst In app set]; intros Hnotin.
  - now rewrite String.eqb_refl.
  - destruct (String.eqb_spec k key) as [-> | _]; [tauto|].
    rewrite IH by tauto. reflexivity.
Qed.

(** The request of getManyReference when the target is already a key of
    the caller's filter: the caller's value for that key is not sent; the
    pair compiled from (target, id) stands at the place of that entry,
    between the pairs of the entries before it and those of the entries
    after it. *)
Theorem reference_replaces_filter_entry (self : TreeQLDataProvider)
  (resource : string) (params : GetManyReferenceParams) (log : list Request)
  (before after : JsObject) (old : JsValue)
  (outBefore outAfter : list (string * JsValue)) (pair : string * JsValue) :
  gr_filter params = JObj (before ++ (gr_target params, old) :: after)%list ->
  NoDup (map fst (before ++ (gr_target params, old) :: after)%list) ->
  formatFilter (JObj before) = inr outBefore ->
  formatFilterEntry (gr_target params, gr_id params) = inr pair ->
  formatFilter (JObj after) = inr outAfter ->
  let url := apiUrl self ++ "/records/" ++ resource ++ "?"
             ++ literalQuery
                  (("order", field (gr_sort params) ++ "," ++ order (gr_sort params))
                   :: ("page", Z_to_string (page (gr_pagination params)) ++ ","
                               ++ Z_to_string (perPage (gr_pagination params)))
                   :: appendAll (appendAll [] (outBefore ++ pair :: outAfter)%list)
                        (metaPairs (gr_meta params))) in
  getManyReference self resource params log
  = ((log ++ [(url, JUndefined)])%list,
     response <- httpClient self url JUndefined ;;
     json <- getProp response "json" ;;
     records <- getProp json "records" ;;
     results <- getProp json "results" ;;
     inr (JObj [("data", records); ("total", results)])).
Proof.
  intros Hfilter Hnd Hbefore Hpair Hafter. cbv zeta.
  unfold getManyReference, hbind, lift, fetch, hret, orderParam, pageParam.
  rewrite Hfilter, (spread_empty _ Hnd), set_in_place.
  2: { rewrite map_app in Hnd. apply NoDup_remove_2 in Hnd.
       intros Hin. apply Hnd. apply in_or_app. now left. }
  rewrite (getURL_list _ _ _ _ _ _ (outBefore ++ pair :: outAfter)%list).
  2: { unfold formatFilter in *. cbn [entries] in *.
       rewrite mapM_app, Hbefore. cbn [bind mapM]. rewrite Hpair, Hafter. reflexivity. }
  destruct (httpClient self _ _) as [e|response]; [reflexivity|]. cbn [bind].
  destruct (getProp response "json") as [e|json]; [reflexivity|]. cbn [bind].
  destruct (getProp json "records") as [e|records]; [reflexivity|]. cbn [bind].
  destruct (getProp json "results"); reflexivity.
Qed.

Lemma reference_replaces_filter_entry_witness :
  let self := new_TreeQLDataProvider "http://myApi.com/"
                (fun _ _ => inr (JObj [("json",
                   JObj [("records", JArr [JObj [("id", JNum 1)]]); ("results", JNum 1)])])) in
  let params := {| gr_target := "post"; gr_id := JStr "1";
                   gr_pagination := {| page := 1; perPage := 10 |};
                   gr_sort := {| field := "title"; order := "ASC" |};
                   gr_filter := JObj [("title_cs", JStr "Comm"); ("post", JNum 7);
                                      ("id_gt", JNum 3)];
                   gr_meta := JUndefined |} in
  getManyReference self "comment" params []
  = ([("http://myApi.com/records/comment?order=title,ASC&page=1,10&filter=title,cs,Comm&filter=post,eq,1&filter=id,gt,3",
       JUndefined)],
     inr (JObj [("data", JArr [JObj [("id", JNum 1)]]); ("total", JNum 1)])).
Proof.
  cbv zeta.
  refine (reference_replaces_filter_entry _ "comment"
            {| gr_target := "post"; gr_id := JStr "1";
               gr_pagination := {| page := 1; perPage := 10 |};
               gr_sort := {| field := "title"; order := "ASC" |};
               gr_filter := JObj [("title_cs", JStr "Comm"); ("post", JNum 7);
                                  ("id_gt", JNum 3)];
               gr_meta := JUndefined |} []
            [("title_cs", JStr "Comm")] [("id_gt", JNum 3)] (JNum 7)
            [(APIFilterParam, JStr "title,cs,Comm")] [(APIFilterParam, JStr "id,gt,3")]
            (APIFilterParam, JStr "post,eq,1") eq_refl _ eq_refl eq_refl eq_refl).
  repeat constructor; simpl; intuition discriminate.
Defined.

(** ** The names of the compiled pairs *)

Lemma formatFilterEntry_name (entry pair : string * JsValue) :
  formatFilterEntry entry = inr pair ->
  fst pair = if fst entry =? searchOperator then APISearchParam else APIFilterParam.
Proof.
  destruct entry as [key value]. unfold formatFilterEntry. cbn [fst].
  destruct (key =? searchOperator); [now intros [= <-]|].
  destruct (_ && _).
  { destruct (formatFilterArguments _ value); cbn [bind]; [discriminate|].
    now intros [= <-]. }
  destruct (_ && _).
  { destruct (formatFilterArguments _ value); cbn [bind]; [discriminate|].
    now intros [= <-]. }
  now intros [= <-].
Qed.

(** Whatever the keys and values of the filter, the compiler emits only
    parameters named search or filter: search for the entry of the search
    key, filter for every other entry. *)
Theorem compiled_pair_names (props : JsObject) (out : list (string * JsValue)) :
  formatFilter (JObj props) = inr out ->
  Forall2 (fun entry pair =>
             fst pair = if fst entry =? searchOperator then APISearchParam
                        else APIFilterParam)
    props out.
Proof.
  intros H. unfold formatFilter in H. cbn [entries] in H.
  apply mapM_Forall2 in H. revert H. apply Forall2_impl.
  exact formatFilterEntry_name.
Qed.

Lemma compiled_pair_names_witness :
  Forall2 (fun entry pair =>
             fst pair = if fst entry =? searchOperator then APISearchParam
                        else APIFilterParam)
    [("page", JNum 9); ("q", JStr "order"); ("order_nis", JNull)]
    [(APIFilterParam, JStr "page,eq,9"); (APISearchParam, JStr "order");
     (APIFilterParam, JStr "order,nis")].
Proof.
  apply (compiled_pair_names [("page", JNum 9); ("q", JStr "order"); ("order_nis", JNull)]).
  reflexivity.
Defined.

Lemma literalQuery_nonempty (kv : string * string) (pairs : list (string * string)) :
  literalQuery (kv :: pairs) <> "".
Proof.
  intros H. apply (f_equal String.length) in H. unfold literalQuery in H.
  destruct pairs; cbn [map concat_sep] in H; rewrite !length_append in H;
    simpl in H; lia.
Qed.

(** [formatParams] never leaves a question mark alone: its result is empty
    exactly when there is no pair to send, and otherwise it is a question
    mark followed by a non-empty query. *)
Theorem formatParams_question_mark (params : JsObject) (query : string) :
  formatParams params = inr query ->
  (query = "" <-> queryPairs params = inr [])
  /\ (query <> "" -> exists rest, rest <> "" /\ query = "?" ++ rest).
Proof.
  rewrite formatParams_queryPairs.
  destruct (queryPairs params) as [e|[|kv pairs]]; cbn [bind]; [discriminate| |];
    intros [= <-]; split.
  - split; reflexivity.
  - intros H. now elim H.
  - split; discriminate.
  - intros _. eexists. split; [|reflexivity]. apply literalQuery_nonempty.
Qed.

Lemma formatParams_question_mark_witness :
  ("" = "" <-> queryPairs [("filter", JUndefined); ("meta", JObj [("page", JNum 2)])] = inr [])
  /\ ("" <> "" -> exists rest, rest <> "" /\ "" = "?" ++ rest).
Proof.
  apply (formatParams_question_mark
           [("filter", JUndefined); ("meta", JObj [("page", JNum 2)])] "").
  reflexivity.
Defined.

(** The only error of [formatParams] is the one of the filter compiler: the
    decoding pass never throws on what the serializer wrote. *)
Theorem formatParams_fails_only_on_filter (params : JsObject) (e : JsError) :
  formatParams params = inl e ->
  truthy (lookup "filter" params) = true
  /\ formatFilter (lookup "filter" params) = inl e.
Proof.
  rewrite formatParams_queryPairs. unfold queryPairs.
  destruct (truthy (lookup "filter" params)); cbn [bind]; [|discriminate].
  destruct (formatFilter (lookup "filter" params)) as [e'|out]; cbn [bind];
    [|discriminate].
  intros [= ->]. now split.
Qed.

Lemma formatParams_fails_only_on_filter_witness :
  truthy (lookup "filter" [("order", JStr "id,ASC"); ("filter", JObj [("id_in", JNum 1)])])
  = true
  /\ formatFilter (lookup "filter"
                     [("order", JStr "id,ASC"); ("filter", JObj [("id_in", JNum 1)])])
     = inl (TypeError inMessage).
Proof.
  apply (formatParams_fails_only_on_filter
           [("order", JStr "id,ASC"); ("filter", JObj [("id_in", JNum 1)])]
           (TypeError inMessage)).
  reflexivity.
Defined.

(** ** The operations on several records *)

Section Bulk.

Variable JSON_stringify : JsValue -> JsValue.
Variable self : TreeQLDataProvider.

Lemma getURL_ids (resource : string) (ids : list JsValue) (meta : JsValue) :
  getURL (apiUrl self) resource [("ids", JArr ids); ("meta", meta)]
  = inr (apiUrl self ++ "/records/" ++ resource ++ "/" ++ Array_join "," ids
         ++ metaQuery meta).
Proof.
  unfold getURL.
  change (lookup "id" _) with JUndefined. change (lookup "ids" _) with (JArr ids).
  change (omit "ids" (omit "id" _)) with [("meta", meta)].
  rewrite formatParams_queryPairs. unfold queryPairs.
  change (lookup "filter" _) with JUndefined. change (lookup "meta" _) with meta.
  change (omit "meta" (omit "filter" _)) with (@nil (string * JsValue)).
  cbn [truthy bind]. rewrite appendAll_nil. now rewrite !append_assoc.
Qed.

Lemma getMany_run (resource : string) (ids : list JsValue) (meta : JsValue)
  (log : list Request) :
  let url := apiUrl self ++ "/records/" ++ resource ++ "/" ++ Array_join "," ids
             ++ metaQuery meta in
  getMany self resource {| gm_ids := JArr ids; gm_meta := meta |} log
  = ((log ++ [(url, JUndefined)])%list,
     response <- httpClient self url JUndefined ;;
     json <- getProp response "json" ;;
     inr (JObj [("data", if isArray json then json else JArr [json])])).
Proof.
  cbv zeta. unfold getMany, hbind, lift, fetch, hret. cbn [gm_ids gm_meta].
  rewrite getURL_ids.
  destruct (httpClient self _ _) as [e|response]; [reflexivity|]. cbn [bind].
  destruct (getProp response "json"); reflexivity.
Qed.

Lemma updateMany_run (resource : string) (ids : list JsValue) (data meta : JsValue)
  (log : list Request) :
  let url := apiUrl self ++ "/records/" ++ resource ++ "/" ++ Array_join "," ids
             ++ metaQuery meta in
  let options := JObj [("method", JStr "PUT"); ("body", JSON_stringify data)] in
  updateMany JSON_stringify self resource
    {| um_ids := JArr ids; um_data := data; um_meta := meta |} log
  = ((log ++ [(url, options)])%list,
     _ <- httpClient self url options ;; inr (JObj [("data", JArr ids)])).
Proof.
  cbv zeta. unfold updateMany, hbind, lift, fetch, hret. cbn [um_ids um_data um_meta].
  rewrite getURL_ids. destruct (httpClient self _ _); reflexivity.
Qed.

Lemma deleteMany_run (resource : string) (ids : list JsValue) (meta : JsValue)
  (log : list Request) :
  let url := apiUrl self ++ "/records/" ++ resource ++ "/" ++ Array_join "," ids
             ++ metaQuery meta in
  let options := JObj [("method", JStr "DELETE")] in
  deleteMany self resource {| dm_ids := JArr ids; dm_meta := meta |} log
  = ((log ++ [(url, options)])%list,
     _ <- httpClient self url options ;; inr (JObj [("data", JArr ids)])).
Proof.
  cbv zeta. unfold deleteMany, hbind, lift, fetch, hret. cbn [dm_ids dm_meta].
  rewrite getURL_ids. destruct (httpClient self _ _); reflexivity.
Qed.

Lemma create_run (resource : string) (data meta : JsValue) (log : list Request) :
  let url := apiUrl self ++ "/records/" ++ resource ++ metaQuery meta in
  let options := JObj [("method", JStr "POST"); ("body", JSON_stringify data)] in
  create JSON_stringify self resource {| cr_data := data; cr_meta := meta |} log
  = ((log ++ [(url, options)])%list,
     response <- httpClient self url options ;;
     json <- getProp response "json" ;;
     inr (JObj [("data", JObj (set "id" json (spread [] data)))])).
Proof.
  cbv zeta. unfold create, hbind, lift, fetch, hret. cbn [cr_data cr_meta].
  rewrite getURL_collection.
  destruct (httpClient self _ _) as [e|response]; [reflexivity|]. cbn [bind].
  destruct (getProp response "json"); reflexivity.
Qed.

End Bulk.

(** getMany issues one GET to <base>/records/<resource>/<ids joined with
    commas> and its data is always an array: the body itself when it is an
    array, the body wrapped in a one-element array in every other case. *)
Theorem getMany_data_is_array (self : TreeQLDataProvider) (resource : string)
  (ids : list JsValue) (meta : JsValue) (log : list Request) :
  let url := apiUrl self ++ "/records/" ++ resource ++ "/" ++ Array_join "," ids
             ++ metaQuery meta in
  let run := getMany self resource {| gm_ids := JArr ids; gm_meta := meta |} log in
  fst run = (log ++ [(url, JUndefined)])%list
  /\ (forall result, snd run = inr result ->
        exists response json records,
          httpClient self url JUndefined = inr response
          /\ getProp response "json" = inr json
          /\ result = JObj [("data", JArr records)]
          /\ (json = JArr records \/ (isArray json = false /\ records = [json]))).
Proof.
  cbv zeta. rewrite getMany_run. cbv zeta. cbn [fst snd]. split; [reflexivity|].
  intros result.
  destruct (httpClient self _ _) as [e|response] eqn:Hresponse; cbn [bind];
    [discriminate|].
  destruct (getProp response "json") as [e|json] eqn:Hjson; cbn [bind]; [discriminate|].
  intros [= <-]. exists response, json.
  destruct json as [| | b | n | s | elems | props]; cbn [isArray];
    try (eexists; repeat split; try reflexivity; try assumption; right; split;
         reflexivity).
  exists elems. repeat split; try reflexivity; try assumption. now left.
Qed.

Lemma getMany_data_is_array_witness :
  exists response json records,
    @inr JsError JsValue (JObj [("json", JObj [("id", JNum 1)])]) = inr response
    /\ getProp response "json" = inr json
    /\ JObj [("data", JArr [JObj [("id", JNum 1)]])] = JObj [("data", JArr records)]
    /\ (json = JArr records \/ (isArray json = false /\ records = [json])).
Proof.
  apply (proj2 (getMany_data_is_array
                  (new_TreeQLDataProvider "http://myApi.com/"
                     (fun _ _ => inr (JObj [("json", JObj [("id", JNum 1)])])))
                  "comment" [JNum 1] JUndefined [])).
  reflexivity.
Defined.

(** updateMany and deleteMany issue one request to
    <base>/records/<resource>/<ids joined with commas>, in the order given,
    and whenever the transport answers they return { data: ids }, the list
    they were given, whatever the answer is. *)
Theorem bulk_operations_echo_ids (JSON_stringify : JsValue -> JsValue)
  (self : TreeQLDataProvider) (resource : string) (ids : list JsValue)
  (data meta : JsValue) (log : list Request) :
  let url := apiUrl self ++ "/records/" ++ resource ++ "/" ++ Array_join "," ids
             ++ metaQuery meta in
  let put := JObj [("method", JStr "PUT"); ("body", JSON_stringify data)] in
  let del := JObj [("method", JStr "DELETE")] in
  updateMany JSON_stringify self resource
    {| um_ids := JArr ids; um_data := data; um_meta := meta |} log
  = ((log ++ [(url, put)])%list,
     _ <- httpClient self url put ;; inr (JObj [("data", JArr ids)]))
  /\ deleteMany self resource {| dm_ids := JArr ids; dm_meta := meta |} log
     = ((log ++ [(url, del)])%list,
        _ <- httpClient self url del ;; inr (JObj [("data", JArr ids)])).
Proof. cbv zeta. now rewrite updateMany_run, deleteMany_run. Qed.

(** ** Results built from the caller's data *)

(** A property read after a spread: the spread object's own value when it
    has the key, the earlier value when it has not. *)
Lemma lookup_spread (props acc : JsObject) (key : string) :
  NoDup (map fst props) ->
  lookup key (spread acc (JObj props))
  = if hasKey key props then lookup key props else lookup key acc.
Proof.
  unfold spread, hasKey. cbn [entries]. revert acc.
  induction props as [|[k w] props IH]; intros acc Hnd;
    cbn [fold_left existsb lookup fst snd]; [reflexivity|].
  cbn [map fst] in Hnd. inversion Hnd as [|? ? Hnotin Hnd']; subst.
  rewrite (IH _ Hnd').
  destruct (String.eqb_spec k key) as [-> | Hne]; cbn [orb].
  - apply hasKey_In in Hnotin. unfold hasKey in Hnotin. rewrite Hnotin.
    apply lookup_set_same.
  - destruct (existsb _ props); [reflexivity|].
    apply lookup_set_other. congruence.
Qed.

Lemma hasKey_set (key k : string) (v : JsValue) (o : JsObject) :
  hasKey key (set k v o) = (k =? key) || hasKey key o.
Proof.
  unfold hasKey. induction o as [|[k' w] o IH]; cbn [set existsb fst].
  - reflexivity.
  - destruct (String.eqb_spec k' k) as [-> | _]; cbn [existsb fst].
    + now destruct (k =? key).
    + rewrite IH. now destruct (k' =? key), (k =? key).
Qed.

Lemma hasKey_spread (props acc : JsObject) (key : string) :
  hasKey key (spread acc (JObj props)) = hasKey key acc || hasKey key props.
Proof.
  unfold spread. cbn [entries]. revert acc.
  induction props as [|[k w] props IH]; intros acc; cbn [fold_left fst snd].
  - unfold hasKey. cbn [existsb]. now rewrite orb_false_r.
  - rewrite IH, hasKey_set.
    change (hasKey key ((k, w) :: props)) with ((k =? key) || hasKey key props).
    now destruct (k =? key), (hasKey key acc), (hasKey key props).
Qed.

(** C9.  When the transport answers, delete without previousData returns
    exactly { data: { id } }; delete with previousData returns a record with
    the keys of previousData and [id], each field read from previousData
    when it has it and the [id] being the one of the call otherwise; update
    without previousData returns a record with the keys of the changed
    fields and [id], each field read from the changed fields when they have
    it and the [id] being the one of the call otherwise.  When the object
    spread has no [id] and no integer-like key, the record is [id] followed
    by its fields in their order. *)
Theorem results_without_previousData (JSON_stringify : JsValue -> JsValue)
  (self : TreeQLDataProvider) (resource : string) (id meta : JsValue)
  (data previous : JsObject) (log : list Request) (answerPut answerDelete : JsValue) :
  NoDup (map fst data) ->
  NoDup (map fst previous) ->
  let url := recordURL (apiUrl self) resource id meta in
  httpClient self url (JObj [("method", JStr "DELETE")]) = inr answerDelete ->
  httpClient self url (JObj [("method", JStr "PUT"); ("body", JSON_stringify (JObj data))])
  = inr answerPut ->
  snd (delete self resource
         {| de_id := id; de_previousData := JUndefined; de_meta := meta |} log)
  = inr (JObj [("data", JObj [("id", id)])])
  /\ (exists record,
        snd (delete self resource
               {| de_id := id; de_previousData := JObj previous; de_meta := meta |} log)
        = inr (JObj [("data", JObj record)])
        /\ (forall key,
              lookup key record
              = if hasKey key previous then lookup key previous
                else if key =? "id" then id else JUndefined)
        /\ (forall key, hasKey key record = ("id" =? key) || hasKey key previous)
        /\ (hasKey "id" previous = false ->
            Forall (fun kv => integerLikeKey (fst kv) = false) previous ->
            record = ("id", id) :: previous))
  /\ (exists record,
        snd (update JSON_stringify self resource
               {| up_id := id; up_data := JObj data; up_previousData := JUndefined;
                  up_meta := meta |} log)
        = inr (JObj [("data", JObj record)])
        /\ (forall key,
              lookup key record
              = if hasKey key data then lookup key data
                else if key =? "id" then id else JUndefined)
        /\ (forall key, hasKey key record = ("id" =? key) || hasKey key data)
        /\ (hasKey "id" data = false ->
            Forall (fun kv => integerLikeKey (fst kv) = false) data ->
            record = ("id", id) :: data)).
Proof.
  intros Hdata Hprevious url Hdelete Hput. subst url.
  assert (Hrecord : forall props, NoDup (map fst props) ->
            (forall key,
                lookup key (spread [("id", id)] (JObj props))
                = if hasKey key props then lookup key props
                  else if key =? "id" then id else JUndefined)
            /\ (forall key, hasKey key (spread [("id", id)] (JObj props))
                            = ("id" =? key) || hasKey key props)
            /\ (hasKey "id" props = false ->
                Forall (fun kv => integerLikeKey (fst kv) = false) props ->
                spread [("id", id)] (JObj props) = ("id", id) :: props)).
  { intros props Hnd. repeat split.
    - intros key. rewrite (lookup_spread props _ key Hnd).
      destruct (hasKey key props); [reflexivity|].
      cbn [lookup]. now rewrite String.eqb_sym.
    - intros key. rewrite hasKey_spread. unfold hasKey at 1. cbn [existsb fst].
      now rewrite orb_false_r.
    - intros Hnoid _. rewrite spread_fresh; [reflexivity | assumption|].
      intros k Hk. unfold hasKey. cbn [existsb fst]. rewrite orb_false_r.
      apply String.eqb_neq. intros <-. apply hasKey_In in Hnoid. contradiction. }
  rewrite !delete_run, update_run. cbv zeta.
  cbn [snd de_id de_previousData de_meta up_id up_data up_previousData up_meta].
  rewrite Hdelete, Hput. cbn [bind]. split; [reflexivity|]. split.
  - exists (spread [("id", id)] (JObj previous)). split; [reflexivity|].
    now apply Hrecord.
  - exists (spread [("id", id)] (JObj data)). split; [reflexivity|].
    now apply Hrecord.
Qed.

Lemma results_without_previousData_witness :
  let self := new_TreeQLDataProvider "http://myApi.com/" (fun _ _ => inr JNull) in
  snd (delete self "comment"
         {| de_id := JNum 1; de_previousData := JUndefined; de_meta := JUndefined |} [])
  = inr (JObj [("data", JObj [("id", JNum 1)])])
  /\ snd (delete self "comment"
            {| de_id := JNum 1;
               de_previousData := JObj [("title", JStr "myComment"); ("content", JStr "text")];
               de_meta := JUndefined |} [])
     = inr (JObj [("data", JObj [("id", JNum 1); ("title", JStr "myComment");
                                 ("content", JStr "text")])])
  /\ snd (update (fun v => v) self "comment"
            {| up_id := JNum 1; up_data := JObj [("title", JStr "New Title")];
               up_previousData := JUndefined; up_meta := JUndefined |} [])
     = inr (JObj [("data", JObj [("id", JNum 1); ("title", JStr "New Title")])]).
Proof.
  cbv zeta.
  assert (Hdata : NoDup (map fst [("title", JStr "New Title")])).
  { repeat constructor; simpl; intuition discriminate. }
  assert (Hprevious : NoDup (map fst [("title", JStr "myComment"); ("content", JStr "text")])).
  { repeat constructor; simpl; intuition discriminate. }
  destruct (results_without_previousData (fun v => v)
              (new_TreeQLDataProvider "http://myApi.com/" (fun _ _ => inr JNull))
              "comment" (JNum 1) JUndefined [("title", JStr "New Title")]
              [("title", JStr "myComment"); ("content", JStr "text")] [] JNull JNull
              Hdata Hprevious eq_refl eq_refl)
    as (Hdelete & (deleted & Hdeleted & _ & _ & Hdeleted_is)
        & (updated & Hupdated & _ & _ & Hupdated_is)).
  split; [exact Hdelete|]. split.
  - rewrite Hdeleted, Hdeleted_is; [reflexivity | reflexivity|].
    repeat constructor.
  - rewrite Hupdated, Hupdated_is; [reflexivity | reflexivity|].
    repeat constructor.
Defined.

(** The record create returns carries the identifier the server answered,
    also when the submitted data had an [id] of its own, and every other
    field as submitted; data without an [id] gets it as its last field. *)
Theorem create_returns_server_id (JSON_stringify : JsValue -> JsValue)
  (self : TreeQLDataProvider) (resource : string) (props : JsObject) (meta : JsValue)
  (log : list Request) (response json : JsValue) :
  NoDup (map fst props) ->
  let url := apiUrl self ++ "/records/" ++ resource ++ metaQuery meta in
  let options := JObj [("method", JStr "POST"); ("body", JSON_stringify (JObj props))] in
  httpClient self url options = inr response ->
  getProp response "json" = inr json ->
  exists record,
    create JSON_stringify self resource {| cr_data := JObj props; cr_meta := meta |} log
    = ((log ++ [(url, options)])%list, inr (JObj [("data", JObj record)]))
    /\ lookup "id" record = json
    /\ (forall key, key <> "id" -> lookup key record = lookup key props)
    /\ (hasKey "id" props = false -> record = (props ++ [("id", json)])%list).
Proof.
  intros Hnd url options Hresponse Hjson. subst url options.
  exists (set "id" json (spread [] (JObj props))).
  rewrite create_run. cbv zeta. rewrite Hresponse. cbn [bind]. rewrite Hjson. cbn [bind].
  rewrite (spread_empty props Hnd). repeat split.
  - apply lookup_set_same.
  - intros key Hne. now apply lookup_set_other.
  - apply set_fresh.
Qed.

Lemma create_returns_server_id_witness :
  exists record,
    create (fun v => v)
      (new_TreeQLDataProvider "http://myApi.com/" (fun _ _ => inr (JObj [("json", JNum 1)])))
      "comment"
      {| cr_data := JObj [("title", JStr "myComment"); ("content", JStr "This is a test")];
         cr_meta := JUndefined |} []
    = ([("http://myApi.com/records/comment",
         JObj [("method", JStr "POST");
               ("body", JObj [("title", JStr "myComment");
                              ("content", JStr "This is a test")])])],
       inr (JObj [("data", JObj record)]))
    /\ lookup "id" record = JNum 1
    /\ (forall key, key <> "id" ->
          lookup key record
          = lookup key [("title", JStr "myComment"); ("content", JStr "This is a test")])
    /\ (hasKey "id" [("title", JStr "myComment"); ("content", JStr "This is a test")] = false ->
        record = [("title", JStr "myComment"); ("content", JStr "This is a test");
                  ("id", JNum 1)]).
Proof.
  refine (create_returns_server_id (fun v => v)
            (new_TreeQLDataProvider "http://myApi.com/"
               (fun _ _ => inr (JObj [("json", JNum 1)])))
            "comment" [("title", JStr "myComment"); ("content", JStr "This is a test")]
            JUndefined [] (JObj [("json", JNum 1)]) (JNum 1) _ eq_refl eq_refl).
  repeat constructor; simpl; intuition discriminate.
Defined.

(** In the record update returns, a field is read from the changed fields
    if they have it, else from previousData if it has it, else it is the
    [id] of the call: the changed fields win over previousData, and both
    win over the identifier. *)
Theorem update_merge_precedence (JSON_stringify : JsValue -> JsValue)
  (self : TreeQLDataProvider) (resource : string) (id meta : JsValue)
  (data previous : JsObject) (log : list Request) (response : JsValue) :
  NoDup (map fst data) ->
  NoDup (map fst previous) ->
  httpClient self (recordURL (apiUrl self) resource id meta)
    (JObj [("method", JStr "PUT"); ("body", JSON_stringify (JObj data))]) = inr response ->
  exists record,
    snd (update JSON_stringify self resource
           {| up_id := id; up_data := JObj data; up_previousData := JObj previous;
              up_meta := meta |} log)
    = inr (JObj [("data", JObj record)])
    /\ (forall key,
          lookup key record
          = if hasKey key data then lookup key data
            else if hasKey key previous then lookup key previous
            else if key =? "id" then id else JUndefined).
Proof.
  intros Hdata Hprevious Hresponse.
  exists (spread (spread [("id", id)] (JObj previous)) (JObj data)).
  rewrite update_run. cbv zeta. cbn [snd up_id up_data up_previousData up_meta].
  rewrite Hresponse. split; [reflexivity|].
  intros key. rewrite (lookup_spread data _ key Hdata).
  destruct (hasKey key data); [reflexivity|].
  rewrite (lookup_spread previous _ key Hprevious).
  destruct (hasKey key previous); [reflexivity|].
  cbn [lookup]. rewrite String.eqb_sym. reflexivity.
Qed.

Lemma update_merge_precedence_witness :
  exists record,
    snd (update (fun v => v)
           (new_TreeQLDataProvider "http://myApi.com/" (fun _ _ => inr JNull)) "comment"
           {| up_id := JStr "1"; up_data := JObj [("title", JStr "New Title")];
              up_previousData := JObj [("id", JNum 1); ("title", JStr "myComment")];
              up_meta := JUndefined |} [])
    = inr (JObj [("data", JObj record)])
    /\ (forall key,
          lookup key record
          = if hasKey key [("title", JStr "New Title")]
            then lookup key [("title", JStr "New Title")]
            else if hasKey key [("id", JNum 1); ("title", JStr "myComment")]
                 then lookup key [("id", JNum 1); ("title", JStr "myComment")]
                 else if key =? "id" then JStr "1" else JUndefined).
Proof.
  refine (update_merge_precedence (fun v => v)
            (new_TreeQLDataProvider "http://myApi.com/" (fun _ _ => inr JNull)) "comment"
            (JStr "1") JUndefined [("title", JStr "New Title")]
            [("id", JNum 1); ("title", JStr "myComment")] [] JNull _ _ eq_refl);
    repeat constructor; simpl; intuition discriminate.
Defined.

(** ** Errors of the transport and of the answer *)


(** getList and getManyReference read [records] and [results] off the body
    of the answer: when the answer has no body, or a null one, they throw a
    TypeError, after the request has been issued. *)
Theorem list_without_body_throws (self : TreeQLDataProvider) (resource : string)
  (params : GetListParams) (log : list Request) (url : string) (response : JsValue) :
  getURL (apiUrl self) resource
    [ ("order", orderParam (gl_sort params)); ("page", pageParam (gl_pagination params))
    ; ("filter", gl_filter params); ("meta", gl_meta params) ] = inr url ->
  httpClient self url JUndefined = inr response ->
  getProp response "json" = inr JNull \/ getProp response "json" = inr JUndefined ->
  exists message,
    getList self resource params log
    = ((log ++ [(url, JUndefined)])%list, inl (TypeError message)).
Proof.
  intros Hurl Hresponse Hjson.
  unfold getList, hbind, lift, fetch, hret. rewrite Hurl, Hresponse.
  destruct Hjson as [-> | ->]; eexists; reflexivity.
Qed.

Lemma list_without_body_throws_witness :
  exists message,
    getList (new_TreeQLDataProvider "http://myApi.com/"
               (fun _ _ => inr (JObj [("status", JNum 200); ("json", JNull)])))
      "comment"
      {| gl_pagination := {| page := 1; perPage := 10 |};
         gl_sort := {| field := "title"; order := "ASC" |};
         gl_filter := JObj []; gl_meta := JUndefined |} []
    = ([("http://myApi.com/records/comment?order=title,ASC&page=1,10", JUndefined)],
       inl (TypeError message)).
Proof.
  refine (list_without_body_throws
            (new_TreeQLDataProvider "http://myApi.com/"
               (fun _ _ => inr (JObj [("status", JNum 200); ("json", JNull)])))
            "comment"
            {| gl_pagination := {| page := 1; perPage := 10 |};
               gl_sort := {| field := "title"; order := "ASC" |};
               gl_filter := JObj []; gl_meta := JUndefined |} []
            "http://myApi.com/records/comment?order=title,ASC&page=1,10"
            (JObj [("status", JNum 200); ("json", JNull)]) eq_refl eq_refl _).
  left. reflexivity.
Defined.

(** ** What the decoding pass gives up *)

Lemma spaceAsPlus_app (a b : string) :
  spaceAsPlus (a ++ b) = spaceAsPlus a ++ spaceAsPlus b.
Proof. induction a as [|c a IH]; cbn [append spaceAsPlus]; [reflexivity | now rewrite IH]. Qed.

(** Because the serialized query is decoded again, the separators inside a
    value reach the URL unescaped: the search text [v&page=w] gives the very
    query string of the four pairs order, page, search [v] and page [w]. *)
Theorem search_text_is_not_escaped (order_ page_ v w : string) :
  formatParams [("order", JStr order_); ("page", JStr page_);
                ("filter", JObj [("q", JStr (v ++ "&page=" ++ w))])]
  = inr ("?" ++ literalQuery [("order", order_); ("page", page_); ("search", v);
                              ("page", w)]).
Proof.
  rewrite formatParams_queryPairs. unfold queryPairs.
  change (lookup "filter" _) with (JObj [("q", JStr (v ++ "&page=" ++ w))]).
  change (lookup "meta" _) with JUndefined.
  change (omit "meta" (omit "filter" _)) with [("order", JStr order_); ("page", JStr page_)].
  cbn [truthy]. unfold formatFilter. cbn [entries mapM]. rewrite entry_search.
  cbn [bind]. unfold literalQuery, appendAll.
  cbn [orEmptyObject entries filter map app fst snd ToString concat_sep spaceAsPlus].
  rewrite spaceAsPlus_app. cbn [spaceAsPlus].
  change (spaceAsPlus "search") with "search". change (spaceAsPlus "page") with "page".
  change (spaceAsPlus "order") with "order".
  now rewrite !append_assoc.
Qed.

(** ** Absent filter and metadata *)

Lemma getURL_list_no_pairs (apiUrl resource order_ page_ : string) (filter_ meta : JsValue) :
  truthy filter_ = false \/ filter_ = JObj [] ->
  getURL apiUrl resource
    [("order", JStr order_); ("page", JStr page_); ("filter", filter_); ("meta", meta)]
  = inr (apiUrl ++ "/records/" ++ resource ++ "?"
         ++ literalQuery (("order", order_) :: ("page", page_)
                          :: appendAll [] (metaPairs meta))).
Proof.
  intros Hfilter. unfold getURL.
  change (lookup "id" _) with JUndefined. change (lookup "ids" _) with JUndefined.
  cbn [truthy bind]. change (omit "ids" (omit "id" ?l)) with l.
  rewrite formatParams_queryPairs. unfold queryPairs.
  change (lookup "filter" _) with filter_. change (lookup "meta" _) with meta.
  change (omit "meta" (omit "filter" _)) with [("order", JStr order_); ("page", JStr page_)].
  assert (E : (if truthy filter_ then formatFilter filter_ else inr []) = inr []).
  { destruct Hfilter as [-> | ->]; reflexivity. }
  rewrite E. reflexivity.
Qed.

(** A list request whose filter is absent, null, otherwise falsy or the
    empty object sends order, page and the metadata only. *)
Theorem getList_without_filter (self : TreeQLDataProvider) (resource : string)
  (params : GetListParams) (log : list Request) :
  truthy (gl_filter params) = false \/ gl_filter params = JObj [] ->
  let url := apiUrl self ++ "/records/" ++ resource ++ "?"
             ++ literalQuery
                  (("order", field (gl_sort params) ++ "," ++ order (gl_sort params))
                   :: ("page", Z_to_string (page (gl_pagination params)) ++ ","
                               ++ Z_to_string (perPage (gl_pagination params)))
                   :: appendAll [] (metaPairs (gl_meta params))) in
  fst (getList self resource params log) = (log ++ [(url, JUndefined)])%list.
Proof.
  intros Hfilter. cbv zeta. unfold getList, hbind, lift, fetch, hret, orderParam, pageParam.
  rewrite (getURL_list_no_pairs _ _ _ _ _ _ Hfilter).
  destruct (httpClient self _ _) as [e|response]; [reflexivity|]. cbn [bind].
  destruct (getProp response "json") as [e|json]; [reflexivity|]. cbn [bind].
  destruct (getProp json "records") as [e|records]; [reflexivity|]. cbn [bind].
  destruct (getProp json "results"); reflexivity.
Qed.

Lemma getList_without_filter_witness :
  fst (getList (new_TreeQLDataProvider "http://myApi.com/" (fun _ _ => inr JNull)) "posts"
         {| gl_pagination := {| page := 2; perPage := 25 |};
            gl_sort := {| field := "title"; order := "DESC" |};
            gl_filter := JNull; gl_meta := JObj [("join", JStr "comments")] |} [])
  = [("http://myApi.com/records/posts?order=title,DESC&page=2,25&join=comments",
      JUndefined)].
Proof.
  apply (getList_without_filter
           (new_TreeQLDataProvider "http://myApi.com/" (fun _ _ => inr JNull)) "posts"
           {| gl_pagination := {| page := 2; perPage := 25 |};
              gl_sort := {| field := "title"; order := "DESC" |};
              gl_filter := JNull; gl_meta := JObj [("join", JStr "comments")] |} []).
  left. reflexivity.
Defined.

(** Metadata that is absent, or whose keys are all reserved ones, adds no
    query string: the URL of a record is then the bare path. *)
Theorem reserved_only_meta_adds_nothing (apiUrl_ resource : string) (id meta : JsValue) :
  Forall (fun kv => In (fst kv) reservedMetaKeys) (entries (orEmptyObject meta)) ->
  getURL apiUrl_ resource [("id", id); ("meta", meta)]
  = inr (apiUrl_ ++ "/records/" ++ resource
         ++ (if truthy id then "/" ++ ToString id else "")).
Proof.
  intros Hres.
  pose proof (getURL_record {| apiUrl := apiUrl_; httpClient := fun _ _ => inr JNull |}
                resource id meta) as H.
  cbn [apiUrl] in H. rewrite H. unfold recordURL, metaQuery.
  assert (E : metaPairs meta = []).
  { unfold metaPairs. induction Hres as [|kv l Hkv _ IH]; cbn [filter]; [reflexivity|].
    assert (Hex : existsb (String.eqb (fst kv)) reservedMetaKeys = true).
    { apply existsb_exists. exists (fst kv). split; [assumption | apply String.eqb_refl]. }
    rewrite Hex. exact IH. }
  rewrite E. cbv zeta. cbn [appendAll map app]. now rewrite !append_nil_r.
Qed.

Lemma reserved_only_meta_adds_nothing_witness :
  getURL "http://myApi.com" "posts"
    [("id", JNum 123); ("meta", JObj [("page", JNum 2); ("filter", JStr "x")])]
  = inr "http://myApi.com/records/posts/123".
Proof.
  apply (reserved_only_meta_adds_nothing "http://myApi.com" "posts" (JNum 123)
           (JObj [("page", JNum 2); ("filter", JStr "x")])).
  repeat constructor; simpl; tauto.
Defined.

(** ** The expectations of the test suite *)

(** Every expectation of the formatFilter tests of [index.test.ts] holds of
    the embedding. *)
Example test_formatFilter_suite :
  formatFilterQuery [("q", JStr "Hello"); ("title", JStr "World")]
    = inr "?search=Hello&filter=title,eq,World"
  /\ formatFilterQuery [("comment", JNum 4)] = inr "?filter=comment,eq,4"
  /\ formatFilterQuery [("comment_cs", JNum 4)] = inr "?filter=comment,cs,4"
  /\ formatFilterQuery [("comment_ncs", JNum 4)] = inr "?filter=comment,ncs,4"
  /\ formatFilterQuery [("comment_sw", JNum 4)] = inr "?filter=comment,sw,4"
  /\ formatFilterQuery [("comment_nsw", JNum 4)] = inr "?filter=comment,nsw,4"
  /\ formatFilterQuery [("comment_ew", JNum 4)] = inr "?filter=comment,ew,4"
  /\ formatFilterQuery [("comment_new", JNum 4)] = inr "?filter=comment,new,4"
  /\ formatFilterQuery [("comment_lt", JNum 4)] = inr "?filter=comment,lt,4"
  /\ formatFilterQuery [("comment_nlt", JNum 4)] = inr "?filter=comment,nlt,4"
  /\ formatFilterQuery [("comment_le", JNum 4)] = inr "?filter=comment,le,4"
  /\ formatFilterQuery [("comment_nle", JNum 4)] = inr "?filter=comment,nle,4"
  /\ formatFilterQuery [("comment_ge", JNum 4)] = inr "?filter=comment,ge,4"
  /\ formatFilterQuery [("comment_nge", JNum 4)] = inr "?filter=comment,nge,4"
  /\ formatFilterQuery [("comment_gt", JNum 4)] = inr "?filter=comment,gt,4"
  /\ formatFilterQuery [("comment_ngt", JNum 4)] = inr "?filter=comment,ngt,4"
  /\ formatFilterQuery [("comment_bt", JArr [JNum 4; JNum 8])] = inr "?filter=comment,bt,4,8"
  /\ formatFilterQuery [("comment_nbt", JArr [JNum 4; JNum 8])] = inr "?filter=comment,nbt,4,8"
  /\ formatFilterQuery [("comment_in", JArr [JNum 4; JNum 8; JNum 16; JNum 32])]
    = inr "?filter=comment,in,4,8,16,32"
  /\ formatFilterQuery [("comment_nin", JArr [JNum 4; JNum 8; JNum 16; JNum 32])]
    = inr "?filter=comment,nin,4,8,16,32"
  /\ formatFilterQuery [("comment_is", JNum 4)] = inr "?filter=comment,is"
  /\ formatFilterQuery [("comment_nis", JNum 4)] = inr "?filter=comment,nis"
  /\ formatFilterQuery [("comment_xy", JNum 4)] = inr "?filter=comment_xy,eq,4"
  /\ formatFilterQuery [("comment_nxy", JNum 4)] = inr "?filter=comment_nxy,eq,4"
  /\ formatFilterQuery [("comment_bt", JArr [JNum 4; JNum 8; JNum 16; JNum 32])]
    = inr "?filter=comment,bt,4,8".
Proof. repeat split; reflexivity. Qed.
